(** * PyCASTEP: spin-resolved DOS extraction (DOSParser)

    A shallow embedding of [DOSParser/read_spin_dos.py] and of the
    band-centre part of [DOSParser/ReadDOS.py], with the properties of the
    band centre, of the alpha/beta reconciliation of the d band and of the
    ordering of the files of a strain series.

    Numbers.  The arrays of the program hold [numpy.float64] values.  Here a
    finite value is an exact rational ([Q]): rounding, overflow and the sign
    of zero are left out.  The one place where the program leaves the finite
    values is the quotient [pEdE/pdE] of [dcenter]; its result has the type
    [float64], which adds the infinities and NaN that numpy's division by
    zero produces.  What is proved of [dcenter] over [Q] is a statement about
    the exact value of the formula; the module [B64] has the same formula on
    binary64 numbers, rounded at each operation as the program computes it,
    and shows on a curve of two points where the two part. *)

From Stdlib Require Import QArith Qfield.
From Stdlib Require PrimFloat.
From stdpp Require Import base option list strings sorting.

Local Open Scope string_scope.
Local Open Scope list_scope.
Local Set Warnings "-register-all".

(** ** Python exceptions and results *)

Inductive exn : Type :=
  | ParseError          (* xml.etree.ElementTree.ParseError *)
  | AttributeError      (* raised by XcdFile.__init__ from a ParseError *)
  | UnboundLocalError   (* a local variable read before any assignment *)
  | KeyError
  | IndexError
  | ValueError.

Inductive result (A : Type) : Type :=
  | Ok (a : A)
  | Raise (e : exn).
Arguments Ok {A} a.
Arguments Raise {A} e.

Global Instance result_ret : MRet result := fun A a => Ok a.

Global Instance result_bind : MBind result := fun A B k r =>
  match r with
  | Ok a => k a
  | Raise e => Raise e
  end.

Definition raises {A} (r : result A) : Prop :=
  match r with Ok _ => False | Raise _ => True end.

(** ** Python dictionaries (insertion ordered) *)

Definition dict (V : Type) : Type := list (string * V).

Fixpoint dict_get {V} (d : dict V) (k : string) : result V :=
  match d with
  | [] => Raise KeyError
  | (k', v) :: d' => if String.eqb k' k then Ok v else dict_get d' k
  end.

(** [d[k] = v]: an existing key keeps its position. *)
Fixpoint dict_set {V} (d : dict V) (k : string) (v : V) : dict V :=
  match d with
  | [] => [(k, v)]
  | (k', v') :: d' =>
      if String.eqb k' k then (k, v) :: d' else (k', v') :: dict_set d' k v
  end.

(** ** float64 values *)

Inductive float64 : Type :=
  | Fin (q : Q)
  | PInf
  | NInf
  | NaN.

(** numpy's [a / b] on two finite values. *)
Definition fdiv (a b : Q) : float64 :=
  if Qeq_bool b 0%Q then
    if Qeq_bool a 0%Q then NaN
    else if Qle_bool 0%Q a then PInf else NInf
  else Fin (a / b)%Q.

(** [a > b] (IEEE: false as soon as one side is NaN). *)
Definition fgt (a b : float64) : bool :=
  match a, b with
  | NaN, _ | _, NaN => false
  | NInf, _ => false
  | _, PInf => false
  | PInf, _ => true
  | Fin _, NInf => true
  | Fin p, Fin q => negb (Qle_bool p q)
  end.


(** Equality of float64 values as numbers. *)
Definition feq (a b : float64) : Prop :=
  match a, b with
  | Fin p, Fin q => (p == q)%Q
  | PInf, PInf | NInf, NInf => True
  | _, _ => False
  end.

(** ** numpy arrays of finite values *)

Definition ndarray : Type := list Q.

(** [y * -1] *)
Definition neg (y : ndarray) : ndarray := map (fun v => v * -1)%Q y.

(** [c * y] *)
Definition scale (c : Q) (y : ndarray) : ndarray := map (fun v => c * v)%Q y.

(** [y * x] *)
Definition arr_mul (y x : ndarray) : ndarray := zip_with Qmult y x.

(** [numpy.diff(x)] *)
Fixpoint np_diff (x : ndarray) : ndarray :=
  match x with
  | a :: (b :: _) as t => (b - a)%Q :: np_diff t
  | _ => []
  end.

(** [a.sum()] *)
Definition np_sum (a : ndarray) : Q := fold_left Qplus a 0%Q.

(** [numpy.trapz(y, x)] for two arrays of the same length:
    [(diff(x) * (y[1:] + y[:-1]) / 2.0).sum()]. *)
Definition np_trapz (y x : ndarray) : Q :=
  np_sum (zip_with (fun d s => d * s / 2)%Q
                   (np_diff x)
                   (zip_with Qplus (tail y) (removelast y))).

(** ** read_spin_dos.dcenter *)

Definition dcenter (x y : ndarray) : float64 :=
  let pdE := np_trapz y x in
  let pEdE := np_trapz (arr_mul y x) x in
  fdiv pEdE pdE.

(** ** The parsed markup document

    An element of the tree that [xml.etree.ElementTree] builds.  Of the
    attributes, the two that the program reads are kept: ["Name"], and
    ["XY"] as the fields that [split(',')] cuts it into.  There is always a
    first field; a field is a text that [float] converts to a number, or one
    that [float] rejects (an empty or non-numeric text). *)

Inductive field : Type :=
  | Number (q : Q)
  | NotNumber.

Inductive Element : Type :=
  Elem (tag : string) (Name : option string) (XY : option (field * list field))
       (children : list Element).

Definition tag (e : Element) : string :=
  match e with Elem t _ _ _ => t end.
Definition children (e : Element) : list Element :=
  match e with Elem _ _ _ cs => cs end.

(** [item.attrib["Name"]] and [item.attrib["XY"].split(',')] *)
Definition attrib_Name (e : Element) : result string :=
  match e with
  | Elem _ (Some n) _ _ => Ok n
  | Elem _ None _ _ => Raise KeyError
  end.
Definition attrib_XY (e : Element) : result (list field) :=
  match e with
  | Elem _ _ (Some (f, fs)) _ => Ok (f :: fs)
  | Elem _ _ None _ => Raise KeyError
  end.

(** [float(text)] *)
Definition float (f : field) : result Q :=
  match f with
  | Number q => Ok q
  | NotNumber => Raise ValueError
  end.

(** [l[i]] *)
Definition index {A} (l : list A) (i : nat) : result A :=
  match l !! i with
  | Some a => Ok a
  | None => Raise IndexError
  end.

(** The descendants of an element, in document order. *)
Fixpoint descendants (e : Element) : list Element :=
  match e with
  | Elem _ _ _ cs => List.flat_map (fun c => c :: descendants c) cs
  end.

(** [root.findall('.//' + t)] *)
Definition findall (root : Element) (t : string) : list Element :=
  List.filter (fun e => String.eqb (tag e) t) (descendants root).

(** ** read_spin_dos.extract_dos *)

Definition extract_dos (band : Element) (key : string) : result ndarray :=
  i ← dict_get [("e", 0%nat); ("dos", 1%nat)] key;
  mapM (fun item => xy ← attrib_XY item; f ← index xy i; float f)
       (children band).

(** ** read_spin_dos.check_ab *)

Definition check_ab (alpha beta : dict ndarray) : result bool :=
  x_a ← dict_get alpha "dE_alpha";
  x_b ← dict_get beta "dE_beta";
  y_a ← dict_get alpha "d_alpha";
  y_b ← dict_get beta "d_beta";
  let dc_alpha := dcenter x_a y_a in
  let dc_beta := dcenter x_b y_b in
  Ok (fgt dc_alpha dc_beta).

(** ** read_spin_dos.band_extract

    With a number of series other than 4 or 6 neither branch assigns
    [d_band_exists], and the [return] statement that reads it raises
    [UnboundLocalError]. *)

Definition band_extract (root : Element) : result (dict Element * bool) :=
  let bands := findall root "SERIES_2D" in
  if decide (length bands = 4%nat) then
    b0 ← index bands 0; b1 ← index bands 1;
    b2 ← index bands 2; b3 ← index bands 3;
    Ok ([("s_alpha", b0); ("s_beta", b1); ("p_alpha", b2); ("p_beta", b3)],
        false)
  else if decide (length bands = 6%nat) then
    b0 ← index bands 0; b1 ← index bands 1;
    b2 ← index bands 2; b3 ← index bands 3;
    b4 ← index bands 4; b5 ← index bands 5;
    Ok ([("s_alpha", b0); ("s_beta", b1); ("p_alpha", b2); ("p_beta", b3);
         ("d_alpha", b4); ("d_beta", b5)],
        true)
  else Raise UnboundLocalError.

(** ** pandas: [pd.concat([DataFrame.from_dict(f) for f in frames], axis=1)]
    The columns side by side; a column shorter than the longest one is
    filled up with NaN ([None]). *)

Definition pd_concat (frames : list (dict ndarray))
  : list (string * list (option Q)) :=
  let cols := concat frames in
  let n := max_list (map (fun c => length (snd c)) cols) in
  map (fun c => (fst c, (map Some (snd c) ++ replicate (n - length (snd c)) None)%list))
      cols.

(** One entry of [DOS]: the energy column and the intensity column. *)
Definition frame (eName : string) (e : ndarray) (dName : string) (d : ndarray)
  : dict ndarray := [(eName, e); (dName, d)].

(** [{'XE_spin': extract_dos(bands[src], 'e'),
      'X_spin': extract_dos(bands[src], 'dos') [*-1]}] *)
Definition entry (bands : dict Element) (src eName dName : string)
    (negate : bool) : result (dict ndarray) :=
  be ← dict_get bands src;
  e ← extract_dos be "e";
  bd ← dict_get bands src;
  d ← extract_dos bd "dos";
  Ok (frame eName e dName (if negate then neg d else d)).

Section ReadSpinDos.

(** [ET.parse(path).getroot()]: the root of the document, or the
    [ParseError] of a file that is no document (empty, truncated). *)
Variable ET_parse : string -> result Element.

(** ** read_spin_dos.parse_xcd
    [parse_xcd_DOS] is the dictionary [DOS] when control reaches the
    conversion to data frames; [parse_xcd] is the returned table. *)

Definition parse_xcd_DOS (path : string) : result (dict (dict ndarray)) :=
  root ← ET_parse path;
  '(bands, d_band_exists) ← band_extract root;
  if negb d_band_exists then
    s_a ← entry bands "s_alpha" "sE_alpha" "s_alpha" false;
    s_b ← entry bands "s_beta" "sE_beta" "s_beta" true;
    p_a ← entry bands "p_alpha" "pE_alpha" "p_alpha" false;
    p_b ← entry bands "p_beta" "pE_beta" "p_beta" true;
    Ok [("s_alpha", s_a); ("s_beta", s_b); ("p_alpha", p_a); ("p_beta", p_b)]
  else
    s_a ← entry bands "s_alpha" "sE_alpha" "s_alpha" false;
    s_b ← entry bands "s_beta" "sE_beta" "s_beta" true;
    p_a ← entry bands "p_alpha" "pE_alpha" "p_alpha" false;
    p_b ← entry bands "p_beta" "pE_beta" "p_beta" true;
    d_a ← entry bands "d_alpha" "dE_alpha" "d_alpha" false;
    d_b ← entry bands "d_beta" "dE_beta" "d_beta" true;
    let DOS := [("s_alpha", s_a); ("s_beta", s_b); ("p_alpha", p_a);
                ("p_beta", p_b); ("d_alpha", d_a); ("d_beta", d_b)] in
    a ← dict_get DOS "d_alpha";
    b ← dict_get DOS "d_beta";
    swap ← check_ab a b;
    if (swap : bool) then
      d_a' ← entry bands "d_beta" "dE_alpha" "d_alpha" true;
      let DOS := dict_set DOS "d_alpha" d_a' in
      d_b' ← entry bands "d_alpha" "dE_beta" "d_beta" false;
      let DOS := dict_set DOS "d_beta" d_b' in
      Ok DOS
    else Ok DOS.

Definition parse_xcd (path : string)
  : result (list (string * list (option Q))) :=
  DOS ← parse_xcd_DOS path;
  Ok (pd_concat (map snd DOS)).

(** ** ReadDOS.XcdFile *)

Record XcdFile : Type := { path : string; bands : dict Element }.

(** [XcdFile.__init__]: a [ParseError] is caught and an [AttributeError]
    raised from it; any other exception passes through. *)
Definition XcdFile_init (p : string) : result XcdFile :=
  match ET_parse p with
  | Raise ParseError => Raise AttributeError
  | Raise e => Raise e
  | Ok root =>
      let found := findall root "SERIES_2D" in
      bs ← foldl (fun acc band =>
                    d ← acc;
                    n ← attrib_Name band;
                    k ← match n with
                        | EmptyString => Raise IndexError
                        | String c _ => Ok (String c EmptyString)
                        end;
                    Ok (dict_set d k band))
                 (Ok []) found;
      Ok {| path := p; bands := bs |}
  end.

End ReadSpinDos.

(** [XcdFile.get_xy] *)
Definition get_xy (self : XcdFile) (band : string)
  : result (ndarray * ndarray) :=
  b ← dict_get (bands self) band;
  xy ← mapM attrib_XY (children b);
  x ← mapM (fun item => f ← index item 0; float f) xy;
  y ← mapM (fun item => f ← index item 1; float f) xy;
  Ok (x, y).


(** ** Python strings and list slices *)

(** [sub in s] *)
Fixpoint contains (sub s : string) : bool :=
  String.prefix sub s ||
  match s with
  | EmptyString => false
  | String _ s' => contains sub s'
  end.

(** [s.replace(old, new)] for a non-empty [old]: [skip] counts the
    characters of a replaced occurrence that are still to be dropped. *)
Fixpoint replace_from (old new s : string) (skip : nat) : string :=
  match s with
  | EmptyString => EmptyString
  | String c s' =>
      match skip with
      | S k => replace_from old new s' k
      | O =>
          if String.prefix old s
          then new +:+ replace_from old new s' (String.length old - 1)
          else String c (replace_from old new s' 0)
      end
  end.
Definition replace (s old new : string) : string := replace_from old new s 0.

(** [l[start::step]] for [step >= 1]: [k] elements are passed over before
    the next one is taken. *)
Fixpoint every {A} (step k : nat) (l : list A) : list A :=
  match l with
  | [] => []
  | a :: l' =>
      match k with
      | O => a :: every step (step - 1) l'
      | S k' => every step k' l'
      end
  end.
Definition slice_from_step {A} (l : list A) (start step : nat) : list A :=
  every step start l.

(** [l.sort()] and [l.sort(reverse=True)] on strings. *)
Definition sort (l : list string) : list string := merge_sort String.le l.
Definition sort_reverse (l : list string) : list string :=
  merge_sort (flip String.le) l.

(** ** read_spin_dos.get_dos, the ordering of the files

    [new_filelist] is the value of the local variable of that name, computed
    from the result of [os.listdir].  [filelist[1]] is read once; the
    conditions of the three branches read the same entry. *)

Definition new_filelist (listing : list string) : result (list string) :=
  let filelist := sort listing in
  f1 ← index filelist 1;
  c1 ← (if contains "subsurface" f1
        then f0 ← index filelist 0; Ok (contains "bulk" f0)
        else Ok false);
  if (c1 : bool) then
    let compressive := sort_reverse (take 12 filelist) in
    let tensile := drop 12 filelist in
    let sf := slice_from_step tensile 2 3 in
    let subsf := slice_from_step tensile 1 3 in
    let bk := slice_from_step tensile 0 3 in
    new_ten ← mapM (fun i => a ← index sf i; b ← index subsf i;
                             c ← index bk i; Ok [a; b; c])
                   (seq 0 (length sf));
    Ok (compressive ++ concat new_ten)
  else if contains "surface" f1 then
    let compressive := sort_reverse (take 8 filelist) in
    let tensile := drop 8 filelist in
    let sf := slice_from_step tensile 1 2 in
    let bk := slice_from_step tensile 0 2 in
    let new_ten := concat (zip_with (fun a b => [a; b]) sf bk) in
    Ok (compressive ++ new_ten)
  else if negb (contains "surface" f1) then
    let compressive := sort_reverse (take 4 filelist) in
    let tensile := drop 4 filelist in
    Ok (compressive ++ tensile)
  else Raise UnboundLocalError.

Section GetDos.

Variable ET_parse : string -> result Element.
Variable os_listdir : string -> list string.

(** [get_dos] up to the writes: the tables in the order in which they are
    written, each under its key, and the index. [p_map] is the map over the
    list, which raises what a call raises. *)
Definition get_dos (_path : string)
  : result (list (string * list (string * list (option Q))) * list string) :=
  files ← new_filelist (os_listdir _path);
  let key_list := map (fun item => replace item "_PDOS.xcd" EmptyString) files in
  let pathlist := map (fun item => _path +:+ "/" +:+ item) files in
  dataframes ← mapM (parse_xcd ET_parse) pathlist;
  Ok (zip key_list dataframes, key_list).

End GetDos.

(** ** Reading the curves of a document *)

(** The raw curve of a series: its energies and its intensities. *)
Definition curve : Type := ndarray * ndarray.

Definition raw_curve (band : Element) : result curve :=
  e ← extract_dos band "e";
  d ← extract_dos band "dos";
  Ok (e, d).

(** A well-formed document: every point of every series has its two
    coordinates, both numbers; [cs] are the raw curves of the series, in
    document order. *)
Definition well_formed (root : Element) (cs : list curve) : Prop :=
  mapM raw_curve (findall root "SERIES_2D") = Ok cs.

(** [DOS[label][label]] and [DOS[label][eName]] *)
Definition column (DOS : dict (dict ndarray)) (label col : string)
  : result ndarray :=
  fr ← dict_get DOS label; dict_get fr col.

(** The table that [parse_xcd] builds from the raw curves [cs] of a
    document of four or of six series: s and p as they come, the curve at a
    beta position negated, and the d pair exchanged when [check_ab] holds of
    the raw alpha curve and the negated raw beta curve. *)
Definition reconciled (cs : list curve) : dict (dict ndarray) :=
  match cs with
  | (x0, y0) :: (x1, y1) :: (x2, y2) :: (x3, y3) :: rest =>
      [("s_alpha", frame "sE_alpha" x0 "s_alpha" y0);
       ("s_beta", frame "sE_beta" x1 "s_beta" (neg y1));
       ("p_alpha", frame "pE_alpha" x2 "p_alpha" y2);
       ("p_beta", frame "pE_beta" x3 "p_beta" (neg y3))] ++
      match rest with
      | [(x4, y4); (x5, y5)] =>
          if fgt (dcenter x4 y4) (dcenter x5 (neg y5))
          then [("d_alpha", frame "dE_alpha" x5 "d_alpha" (neg y5));
                ("d_beta", frame "dE_beta" x4 "d_beta" y4)]
          else [("d_alpha", frame "dE_alpha" x4 "d_alpha" y4);
                ("d_beta", frame "dE_beta" x5 "d_beta" (neg y5))]
      | _ => []
      end
  | _ => []
  end.

(** [times k a b]: the value [a] is [k] times the value [b]; used entry by
    entry on two arrays. *)
Definition times (k a b : Q) : Prop := (a == k * b)%Q.

(** ** ReadDOS.XcdFile.get_dos_df

    The four bands are read in the order s, p, d, f; the table has a column
    per array, a shorter one filled up with NaN. *)
Definition get_dos_df (self : XcdFile)
  : result (list (string * list (option Q))) :=
  '(s_e, s_dos) ← get_xy self "s";
  '(p_e, p_dos) ← get_xy self "p";
  '(d_e, d_dos) ← get_xy self "d";
  '(f_e, f_dos) ← get_xy self "f";
  Ok (pd_concat [[("se", s_e); ("sdos", s_dos); ("pe", p_e); ("pdos", p_dos);
                  ("de", d_e); ("ddos", d_dos); ("fe", f_e); ("fdos", f_dos)]]).

(** ** Descriptions used in the statements *)

(** Every whole group of three consecutive entries reversed; an incomplete
    last group left out. *)
Fixpoint reverse_triples {A} (l : list A) : list A :=
  match l with
  | a :: b :: c :: l' => c :: b :: a :: reverse_triples l'
  | _ => []
  end.

(** Every whole group of two consecutive entries exchanged; a last single
    entry left out. *)
Fixpoint swap_pairs {A} (l : list A) : list A :=
  match l with
  | a :: b :: l' => b :: a :: swap_pairs l'
  | _ => []
  end.

(** The key under which [XcdFile.__init__] stores a series: the first
    character of its name. *)
Definition initial (band : Element) : option string :=
  match band with
  | Elem _ (Some (String c _)) _ _ => Some (String c EmptyString)
  | _ => None
  end.

(** The energy column of an entry of [DOS]. *)
Definition frame_energy (fr : dict ndarray) : ndarray :=
  match fr with
  | (_, e) :: _ => e
  | [] => []
  end.

(** ** The band centre in binary64

    [dcenter] and what it calls, on IEEE binary64 numbers with the rounding
    of every operation.  [np_sum] adds from left to right; numpy chooses the
    order of the additions by the length of the array, which plays no part
    for the curves of two points used below, whose sums have one term. *)

Module B64.
Import PrimFloat.

Definition ndarray : Type := list PrimFloat.float.

(** [c * y] *)
Definition scale (c : PrimFloat.float) (y : ndarray) : ndarray :=
  map (fun v => c * v)%float y.

(** [y * x] *)
Definition arr_mul (y x : ndarray) : ndarray := zip_with PrimFloat.mul y x.

(** [numpy.diff(x)] *)
Fixpoint np_diff (x : ndarray) : ndarray :=
  match x with
  | a :: (b :: _) as t => (b - a)%float :: np_diff t
  | _ => []
  end.

(** [a.sum()] *)
Definition np_sum (a : ndarray) : PrimFloat.float :=
  fold_left PrimFloat.add a 0%float.

(** [numpy.trapz(y, x)]: [(diff(x) * (y[1:] + y[:-1]) / 2.0).sum()] *)
Definition np_trapz (y x : ndarray) : PrimFloat.float :=
  np_sum (zip_with (fun d s => d * s / 2)%float
                   (np_diff x)
                   (zip_with PrimFloat.add (tail y) (removelast y))).

(** [read_spin_dos.dcenter] *)
Definition dcenter (x y : ndarray) : PrimFloat.float :=
  let pdE := np_trapz y x in
  let pEdE := np_trapz (arr_mul y x) x in
  (pEdE / pdE)%float.


End B64.

(** ** Example documents *)

Definition point (x y : Q) : Element :=
  Elem "POINT_2D" None (Some (Number x, [Number y])) [].
Definition series (name : string) (pts : list (Q * Q)) : Element :=
  Elem "SERIES_2D" (Some name) None (map (fun p => point (fst p) (snd p)) pts).
Definition document (ss : list Element) : Element :=
  Elem "XCD" None None [Elem "CHART_2D" None None ss].

(** One series, named d, of zero intensity at the energies 0, 1 and 2. *)
Definition flat_document : Element :=
  document [series "d" [(0, 0); (1, 0); (2, 0)]%Q].
Definition flat_file : XcdFile :=
  {| path := "flat.xcd"; bands := [("d", series "d" [(0, 0); (1, 0); (2, 0)]%Q)] |}.

(** ** Example documents of six series *)

Definition six_series (d_alpha_raw d_beta_raw : list (Q * Q)) : Element :=
  document [series "s" [(0, 1); (1, 2)]%Q; series "s" [(0, 3); (1, 4)]%Q;
            series "p" [(0, 5); (1, 6)]%Q; series "p" [(0, 7); (1, 8)]%Q;
            series "d" d_alpha_raw; series "d" d_beta_raw].

(** Raw d alpha of centre 1, raw d beta of centre 2. *)
Definition doc_centers_1_2 : Element :=
  six_series [(0, 1); (2, 1)]%Q [(1, 1); (3, 1)]%Q.
(** Raw d alpha of centre 2, raw d beta of centre 1. *)
Definition doc_centers_2_1 : Element :=
  six_series [(1, 1); (3, 1)]%Q [(0, 1); (2, 1)]%Q.
(** Raw d alpha and raw d beta both of centre 1. *)
Definition doc_centers_tie : Element :=
  six_series [(0, 1); (2, 1)]%Q [(0, 3); (2, 3)]%Q.
(** Five series. *)
Definition doc_five_series : Element :=
  document [series "s" [(0, 1)]%Q; series "s" [(0, 1)]%Q; series "p" [(0, 1)]%Q;
            series "p" [(0, 1)]%Q; series "d" [(0, 1)]%Q].

(** * Properties *)

(** ** Strings and slices, on examples *)

Example every_2_3 : slice_from_step [0;1;2;3;4;5;6;7]%nat 2 3 = [2;5]%nat.
Proof. reflexivity. Qed.
Example every_0_3 : slice_from_step [0;1;2;3;4;5;6;7]%nat 0 3 = [0;3;6]%nat.
Proof. reflexivity. Qed.
Example replace_suffix :
  replace "Fe_bulk_PDOS.xcd" "_PDOS.xcd" EmptyString = "Fe_bulk".
Proof. reflexivity. Qed.
Example contains_sub : contains "surface" "a_subsurface_1" = true.
Proof. reflexivity. Qed.


(** ** The band centre *)

Example dcenter_constant : feq (dcenter [0; 1; 2]%Q [1; 1; 1]%Q) (Fin 1).
Proof. reflexivity. Qed.
Example dcenter_zero_num_nonzero : dcenter [0; 1; 2]%Q [1; 0; -1]%Q = NInf.
Proof. reflexivity. Qed.

Section Linear.

Variable k : Q.
Abbreviation related := (Forall2 (times k)).

Lemma related_tail a b : related a b -> related (tail a) (tail b).
Proof. destruct 1; simpl; auto. Qed.

Lemma related_removelast a b : related a b -> related (removelast a) (removelast b).
Proof.
  induction 1 as [|p q a b Hpq Hab IH]; simpl; [constructor|].
  destruct Hab; [constructor|].
  constructor; [exact Hpq | exact IH].
Qed.

Lemma related_plus a a' b b' :
  related a a' -> related b b' ->
  related (zip_with Qplus a b) (zip_with Qplus a' b').
Proof.
  intros Ha; revert b b'.
  induction Ha as [|p q a a' Hpq Ha IH]; intros b b' Hb; simpl; [constructor|].
  destruct Hb as [|r s b b' Hrs Hb]; constructor; [|auto].
  unfold times in *. rewrite Hpq, Hrs. ring.
Qed.

Lemma related_mul y y' x :
  related y y' -> related (arr_mul y x) (arr_mul y' x).
Proof.
  intros Hy; revert x.
  induction Hy as [|p q y y' Hpq Hy IH]; intros x; simpl; [constructor|].
  destruct x as [|a x]; constructor; [|apply IH].
  unfold times in *. rewrite Hpq. ring.
Qed.

Lemma related_terms d s s' :
  related s s' ->
  related (zip_with (fun d s => d * s / 2)%Q d s)
          (zip_with (fun d s => d * s / 2)%Q d s').
Proof.
  revert s s'.
  induction d as [|a d IH]; intros s s' Hs; simpl; [constructor|].
  destruct Hs as [|r t s s' Hrt Hs]; constructor; [|auto].
  unfold times in *. rewrite Hrt. field.
Qed.

Lemma fold_left_Qplus_related a b (u v : Q) :
  related a b -> (u == k * v)%Q ->
  (fold_left Qplus a u == k * fold_left Qplus b v)%Q.
Proof.
  intros Hab; revert u v.
  induction Hab as [|p q a b Hpq Hab IH]; intros u v Huv; simpl; [exact Huv|].
  apply IH. unfold times in Hpq. rewrite Huv, Hpq. ring.
Qed.

Lemma np_trapz_related y y' x :
  related y y' -> (np_trapz y x == k * np_trapz y' x)%Q.
Proof.
  intros Hy. unfold np_trapz, np_sum.
  apply fold_left_Qplus_related; [|ring].
  apply related_terms, related_plus;
    [apply related_tail | apply related_removelast]; exact Hy.
Qed.

End Linear.








Example flat_file_init :
  XcdFile_init (fun _ => Ok flat_document) "flat.xcd" = Ok flat_file.
Proof. reflexivity. Qed.



Section Binary64.
Import PrimFloat.

(** On small whole numbers the binary64 centre is the exact one. *)
Example B64_dcenter_exact :
  B64.dcenter [0; 2]%float [1; 1]%float = 1%float /\
  B64.dcenter [1; 3]%float [1; 1]%float = 2%float.
Proof. split; reflexivity. Qed.


End Binary64.







Lemma bind_Ok {A B} (r : result A) (k : A -> result B) (b : B) :
  r ≫= k = Ok b -> exists a, r = Ok a /\ k a = Ok b.
Proof. destruct r as [a|e]; simpl; [eauto | discriminate]. Qed.

Lemma mapM_Ok {A B} (f : A -> result B) (l : list A) (cs : list B) :
  mapM f l = Ok cs -> Forall2 (fun a c => f a = Ok c) l cs.
Proof.
  revert cs. induction l as [|a l IH]; intros cs H; simpl in H.
  - injection H as <-. constructor.
  - apply bind_Ok in H as (b & Hb & H).
    apply bind_Ok in H as (bs & Hbs & H).
    injection H as <-. constructor; auto.
Qed.

Lemma raw_curve_Ok band x y :
  raw_curve band = Ok (x, y) ->
  extract_dos band "e" = Ok x /\ extract_dos band "dos" = Ok y.
Proof.
  unfold raw_curve. intros H.
  apply bind_Ok in H as (e & He & H). apply bind_Ok in H as (d & Hd & H).
  injection H as <- <-. auto.
Qed.

Lemma entry_Ok bands src band x y eName dName negate :
  dict_get bands src = Ok band -> raw_curve band = Ok (x, y) ->
  entry bands src eName dName negate
  = Ok (frame eName x dName (if negate then neg y else y)).
Proof.
  intros Hb Hc. apply raw_curve_Ok in Hc as [He Hd].
  unfold entry. rewrite Hb. simpl. rewrite He. simpl. rewrite Hd. reflexivity.
Qed.

Arguments entry : simpl never.
Arguments dcenter : simpl never.

(** Replaces the calls of [entry] on the series [b], stored under [src] and
    of raw curve [(x, y)], by the frames they return. *)
Ltac use_entry src b x y :=
  repeat (rewrite (entry_Ok _ src b x y) by first [assumption | reflexivity]);
  simpl.

Section ParseXcd.

Variable ET_parse : string -> result Element.

Lemma parse_xcd_DOS_reconciled path root cs :
  ET_parse path = Ok root -> well_formed root cs ->
  length cs = 4%nat \/ length cs = 6%nat ->
  parse_xcd_DOS ET_parse path = Ok (reconciled cs).
Proof.
  intros HET Hwf Hlen. unfold well_formed in Hwf.
  apply mapM_Ok in Hwf.
  unfold parse_xcd_DOS, band_extract. rewrite HET. simpl.
  destruct Hlen as [Hlen|Hlen].
  - destruct cs as [|[x0 y0] [|[x1 y1] [|[x2 y2] [|[x3 y3] [|]]]]]; try discriminate.
    inversion Hwf as [|b0 ? l0 ? H0 Hwf0]; subst.
    inversion Hwf0 as [|b1 ? l1 ? H1 Hwf1]; subst.
    inversion Hwf1 as [|b2 ? l2 ? H2 Hwf2]; subst.
    inversion Hwf2 as [|b3 ? l3 ? H3 Hwf3]; subst.
    inversion Hwf3; subst. simpl.
    use_entry "s_alpha" b0 x0 y0. use_entry "s_beta" b1 x1 y1.
    use_entry "p_alpha" b2 x2 y2. use_entry "p_beta" b3 x3 y3.
    reflexivity.
  - destruct cs as [|[x0 y0] [|[x1 y1] [|[x2 y2] [|[x3 y3]
      [|[x4 y4] [|[x5 y5] [|]]]]]]]; try discriminate.
    inversion Hwf as [|b0 ? l0 ? H0 Hwf0]; subst.
    inversion Hwf0 as [|b1 ? l1 ? H1 Hwf1]; subst.
    inversion Hwf1 as [|b2 ? l2 ? H2 Hwf2]; subst.
    inversion Hwf2 as [|b3 ? l3 ? H3 Hwf3]; subst.
    inversion Hwf3 as [|b4 ? l4 ? H4 Hwf4]; subst.
    inversion Hwf4 as [|b5 ? l5 ? H5 Hwf5]; subst.
    inversion Hwf5; subst. simpl.
    use_entry "s_alpha" b0 x0 y0. use_entry "s_beta" b1 x1 y1.
    use_entry "p_alpha" b2 x2 y2. use_entry "p_beta" b3 x3 y3.
    use_entry "d_alpha" b4 x4 y4. use_entry "d_beta" b5 x5 y5.
    destruct (fgt (dcenter x4 y4) (dcenter x5 (neg y5))); reflexivity.
Qed.

End ParseXcd.






(** ** The reconciliation of the d pair *)







(** ** The sign convention *)

(** C2, as the code has it: in a well-formed document of four or of six
    series the sign follows the position of the raw series, not the label of
    the result.  The s and p curves and, when it is not exchanged, the d
    pair: alpha is the raw alpha curve, beta is -1 times the raw beta curve.
    An exchanged d pair: d_alpha is -1 times the raw beta curve and d_beta is
    the raw alpha curve as it is. *)
Theorem sign_follows_raw_position
    (ET_parse : string -> result Element) (path : string) (root : Element)
    (c0 c1 c2 c3 : curve) (rest : list curve) :
  ET_parse path = Ok root ->
  well_formed root (c0 :: c1 :: c2 :: c3 :: rest) ->
  length rest = 0%nat \/ length rest = 2%nat ->
  exists DOS,
    parse_xcd_DOS ET_parse path = Ok DOS /\
    column DOS "s_alpha" "s_alpha" = Ok c0.2 /\
    column DOS "s_beta" "s_beta" = Ok (neg c1.2) /\
    column DOS "p_alpha" "p_alpha" = Ok c2.2 /\
    column DOS "p_beta" "p_beta" = Ok (neg c3.2) /\
    match rest with
    | [] => dict_get DOS "d_alpha" = Raise KeyError /\
            dict_get DOS "d_beta" = Raise KeyError
    | [c4; c5] =>
        (column DOS "d_alpha" "d_alpha" = Ok c4.2 /\
         column DOS "d_beta" "d_beta" = Ok (neg c5.2)) \/
        (column DOS "d_alpha" "d_alpha" = Ok (neg c5.2) /\
         column DOS "d_beta" "d_beta" = Ok c4.2)
    | _ => False
    end.
Proof.
  intros HET Hwf Hlen.
  exists (reconciled (c0 :: c1 :: c2 :: c3 :: rest)).
  split.
  { apply (parse_xcd_DOS_reconciled _ _ root); auto.
    simpl. destruct Hlen as [-> | ->]; auto. }
  destruct c0 as [x0 y0], c1 as [x1 y1], c2 as [x2 y2], c3 as [x3 y3].
  destruct Hlen as [Hlen|Hlen].
  - destruct rest; [|discriminate]. repeat split.
  - destruct rest as [|[x4 y4] [|[x5 y5] [|]]]; try discriminate.
    unfold reconciled.
    destruct (fgt (dcenter x4 y4) (dcenter x5 (neg y5))); simpl;
      repeat split; auto.
Qed.

Lemma sign_follows_raw_position_witness :
  exists DOS,
    parse_xcd_DOS (fun _ => Ok doc_centers_2_1) "a.xcd" = Ok DOS /\
    column DOS "s_alpha" "s_alpha" = Ok [1; 2]%Q /\
    column DOS "s_beta" "s_beta" = Ok (neg [3; 4]%Q) /\
    column DOS "p_alpha" "p_alpha" = Ok [5; 6]%Q /\
    column DOS "p_beta" "p_beta" = Ok (neg [7; 8]%Q) /\
    ((column DOS "d_alpha" "d_alpha" = Ok [1; 1]%Q /\
      column DOS "d_beta" "d_beta" = Ok (neg [1; 1]%Q)) \/
     (column DOS "d_alpha" "d_alpha" = Ok (neg [1; 1]%Q) /\
      column DOS "d_beta" "d_beta" = Ok [1; 1]%Q)).
Proof.
  apply (sign_follows_raw_position (fun _ => Ok doc_centers_2_1) "a.xcd"
           doc_centers_2_1 ([0; 1], [1; 2])%Q ([0; 1], [3; 4])%Q
           ([0; 1], [5; 6])%Q ([0; 1], [7; 8])%Q
           [([1; 3], [1; 1]); ([0; 2], [1; 1])]%Q).
  - reflexivity.
  - reflexivity.
  - right. reflexivity.
Defined.

(** C2, as stated, fails: with a raw d alpha of centre 2 and a raw d beta of
    centre 1 the pair is exchanged, and then the curve labelled alpha is the
    negated one and the curve labelled beta is the raw alpha curve, not
    negated. *)
Lemma swapped_alpha_is_negated :
  exists DOS,
    parse_xcd_DOS (fun _ => Ok doc_centers_2_1) "a.xcd" = Ok DOS /\
    well_formed doc_centers_2_1
      [([0; 1], [1; 2]); ([0; 1], [3; 4]); ([0; 1], [5; 6]); ([0; 1], [7; 8]);
       ([1; 3], [1; 1]); ([0; 2], [1; 1])]%Q /\
    dict_get DOS "d_alpha" = Ok (frame "dE_alpha" [0; 2]%Q "d_alpha" (neg [1; 1]%Q)) /\
    dict_get DOS "d_beta" = Ok (frame "dE_beta" [1; 3]%Q "d_beta" [1; 1]%Q) /\
    column DOS "d_alpha" "d_alpha" <> Ok [1; 1]%Q /\
    column DOS "d_beta" "d_beta" <> Ok (neg [1; 1]%Q).
Proof.
  eexists. split; [reflexivity|].
  repeat split; discriminate.
Qed.

(** ** Errors *)

(** C5: what [band_extract] returns, by the series of the document: the
    positional labelling for four and for six series, and for any other
    number the [UnboundLocalError] of the unassigned [d_band_exists]; no
    error of its own names the number of series. *)
Theorem band_extract_by_count (root : Element) :
  band_extract root =
  match findall root "SERIES_2D" with
  | [b0; b1; b2; b3] =>
      Ok ([("s_alpha", b0); ("s_beta", b1); ("p_alpha", b2); ("p_beta", b3)],
          false)
  | [b0; b1; b2; b3; b4; b5] =>
      Ok ([("s_alpha", b0); ("s_beta", b1); ("p_alpha", b2); ("p_beta", b3);
           ("d_alpha", b4); ("d_beta", b5)],
          true)
  | _ => Raise UnboundLocalError
  end.
Proof.
  unfold band_extract.
  destruct (findall root "SERIES_2D") as [|b0 [|b1 [|b2 [|b3 [|b4 [|b5 [|b6 l]]]]]]];
    reflexivity.
Qed.

(** A document of five series: [band_extract] and [parse_xcd] raise
    [UnboundLocalError]. *)
Example five_series_unbound_local :
  length (findall doc_five_series "SERIES_2D") = 5%nat /\
  band_extract doc_five_series = Raise UnboundLocalError /\
  parse_xcd (fun _ => Ok doc_five_series) "a.xcd" = Raise UnboundLocalError.
Proof. repeat split. Qed.

Lemma mapM_raises {A B} (f : A -> result B) (l : list A) (a : A) :
  a ∈ l -> raises (f a) -> raises (mapM f l).
Proof.
  induction 1 as [a l|a b l Hin IH]; intros Hr; simpl.
  - destruct (f a); [contradiction|exact I].
  - destruct (f b); [|exact I]. simpl.
    specialize (IH Hr). destruct (mapM f l); [contradiction|exact I].
Qed.

(** C6: a file that is no document makes [ET.parse] raise [ParseError];
    [parse_xcd] raises it to its caller, [XcdFile.__init__] raises an
    [AttributeError] from it, and [get_dos] raises when one of the files of
    the directory is such a file.  No table is returned. *)
Theorem parse_error_is_raised
    (ET_parse : string -> result Element) (path : string) :
  ET_parse path = Raise ParseError ->
  parse_xcd ET_parse path = Raise ParseError /\
  XcdFile_init ET_parse path = Raise AttributeError /\
  forall (os_listdir : string -> list string) (dir item : string)
         (files : list string),
    new_filelist (os_listdir dir) = Ok files ->
    item ∈ files ->
    path = dir +:+ "/" +:+ item ->
    raises (get_dos ET_parse os_listdir dir).
Proof.
  intros HET. split; [|split].
  - unfold parse_xcd, parse_xcd_DOS. rewrite HET. reflexivity.
  - unfold XcdFile_init. rewrite HET. reflexivity.
  - intros os_listdir dir item files Hfiles Hin ->.
    unfold get_dos. rewrite Hfiles. simpl.
    assert (Hr : raises (mapM (parse_xcd ET_parse)
                           (map (fun item => dir +:+ "/" +:+ item) files))).
    { apply (mapM_raises _ _ (dir +:+ "/" +:+ item)).
      - apply list_elem_of_fmap. exists item. auto.
      - unfold parse_xcd, parse_xcd_DOS. rewrite HET. exact I. }
    destruct (mapM _ _); [contradiction|exact I].
Qed.

Lemma parse_error_is_raised_witness :
  parse_xcd (fun _ => Raise ParseError) "d/empty.xcd" = Raise ParseError /\
  XcdFile_init (fun _ => Raise ParseError) "d/empty.xcd" = Raise AttributeError /\
  forall (os_listdir : string -> list string) (dir item : string)
         (files : list string),
    new_filelist (os_listdir dir) = Ok files ->
    item ∈ files ->
    "d/empty.xcd" = dir +:+ "/" +:+ item ->
    raises (get_dos (fun _ => Raise ParseError) os_listdir dir).
Proof.
  apply (parse_error_is_raised (fun _ => Raise ParseError) "d/empty.xcd").
  reflexivity.
Defined.

(** ** The ordering of the files *)

Arguments contains : simpl never.

(** *** Sorting *)

Lemma sort_Permutation l : sort l ≡ₚ l.
Proof. apply merge_sort_Permutation. Qed.

Lemma sort_reverse_Permutation l : sort_reverse l ≡ₚ l.
Proof. apply merge_sort_Permutation. Qed.

Lemma Sorted_sort l : Sorted String.le (sort l).
Proof. apply Sorted_merge_sort, _. Qed.

Local Instance flip_le_total : Total (flip String.le).
Proof. intros s1 s2. destruct (total String.le s1 s2); [right|left]; assumption. Qed.

Local Instance flip_le_anti_symm : AntiSymm (=) (flip String.le).
Proof. intros s1 s2 H1 H2. apply (anti_symm String.le); assumption. Qed.

Local Instance flip_le_transitive : Transitive (flip String.le).
Proof. intros s1 s2 s3 H1 H2. unfold flip in *. etrans; eassumption. Qed.

(** The sorted list depends on the entries only, not on their order. *)
Lemma sort_Permutation_eq l1 l2 : l1 ≡ₚ l2 -> sort l1 = sort l2.
Proof.
  intros H. apply (Sorted_unique String.le); try apply Sorted_sort.
  rewrite !sort_Permutation. exact H.
Qed.

Lemma Sorted_take n l : Sorted String.le l -> Sorted String.le (take n l).
Proof.
  intros H. apply Sorted_StronglySorted in H; [|apply _].
  rewrite <- (take_drop n l) in H.
  apply StronglySorted_app_1_l in H. apply StronglySorted_Sorted, H.
Qed.

(** Sorting downwards a list that is sorted upwards reverses it. *)
Lemma sort_reverse_Sorted l : Sorted String.le l -> sort_reverse l = reverse l.
Proof.
  intros H. apply (Sorted_unique (flip String.le)).
  - apply Sorted_merge_sort, _.
  - apply Sorted_reverse, H.
  - rewrite sort_reverse_Permutation, reverse_Permutation. reflexivity.
Qed.

(** *** Slices with a step *)

Lemma mapM_seq_S {B} (f : nat -> result B) s n :
  mapM f (seq (S s) n) = mapM (fun i => f (S i)) (seq s n).
Proof.
  revert s. induction n as [|n IH]; intros s; simpl; [reflexivity|].
  rewrite IH. reflexivity.
Qed.

(** A list of [3 * n] entries, regrouped by threes. *)
Lemma triples_Permutation n (t : list string) :
  length t = (3 * n)%nat ->
  exists rows,
    mapM (fun i => a ← index (slice_from_step t 2 3) i;
                   b ← index (slice_from_step t 1 3) i;
                   c ← index (slice_from_step t 0 3) i; Ok [a; b; c])
         (seq 0 (length (slice_from_step t 2 3))) = Ok rows /\
    concat rows ≡ₚ t.
Proof.
  revert t. induction n as [|n IH]; intros t Hlen.
  - destruct t; [|discriminate]. exists []. split; reflexivity.
  - destruct t as [|a [|b [|c t]]]; try (simpl in Hlen; lia).
    destruct (IH t) as (rows & Hrows & Hperm); [simpl in Hlen; lia|].
    exists ([c; b; a] :: rows). split.
    + unfold slice_from_step in *. simpl. rewrite mapM_seq_S.
      simpl.
      exact (f_equal (fun r => r ≫= (fun k => Ok ([c; b; a] :: k))) Hrows).
    + simpl. rewrite Hperm. solve_Permutation.
Qed.

(** A list of [2 * n] entries, regrouped by twos. *)
Lemma pairs_Permutation n (t : list string) :
  length t = (2 * n)%nat ->
  concat (zip_with (fun a b => [a; b])
            (slice_from_step t 1 2) (slice_from_step t 0 2)) ≡ₚ t.
Proof.
  revert t. induction n as [|n IH]; intros t Hlen.
  - destruct t; [|discriminate]. reflexivity.
  - destruct t as [|a [|b t]]; try (simpl in Hlen; lia).
    unfold slice_from_step in *. simpl.
    rewrite IH by (simpl in Hlen; lia). solve_Permutation.
Qed.

(** C8: in the bulk-only layout (neither marker in the second sorted entry)
    the first four sorted entries come reversed and the others follow as
    they are; the listing m1, m2, m3, m4, t1, t2 comes out as
    m4, m3, m2, m1, t1, t2. *)
Theorem bulk_only_order (listing : list string) (f1 : string) :
  sort listing !! 1%nat = Some f1 ->
  contains "subsurface" f1 = false ->
  contains "surface" f1 = false ->
  new_filelist listing
  = Ok (reverse (take 4 (sort listing)) ++ drop 4 (sort listing)) /\
  new_filelist ["m1"; "m2"; "m3"; "m4"; "t1"; "t2"]
  = Ok ["m4"; "m3"; "m2"; "m1"; "t1"; "t2"].
Proof.
  intros H1 Hsub Hsurf. split; [|reflexivity].
  unfold new_filelist. cbv zeta.
  replace (index (sort listing) 1) with (Ok f1)
    by (unfold index; rewrite H1; reflexivity).
  cbn [mbind result_bind]. rewrite Hsub. cbn [mbind result_bind].
  rewrite Hsurf. cbn [negb].
  rewrite sort_reverse_Sorted by apply Sorted_take, Sorted_sort.
  reflexivity.
Qed.

Lemma bulk_only_order_witness :
  new_filelist ["t2"; "m3"; "m1"; "t1"; "m4"; "m2"]
  = Ok (reverse (take 4 (sort ["t2"; "m3"; "m1"; "t1"; "m4"; "m2"]))
        ++ drop 4 (sort ["t2"; "m3"; "m1"; "t1"; "m4"; "m2"])) /\
  new_filelist ["m1"; "m2"; "m3"; "m4"; "t1"; "t2"]
  = Ok ["m4"; "m3"; "m2"; "m1"; "t1"; "t2"].
Proof.
  apply (bulk_only_order ["t2"; "m3"; "m1"; "t1"; "m4"; "m2"] "m2");
    reflexivity.
Defined.

(** C7, as the code has it: the ordering depends on the entries of the
    listing only; and for a listing of at least two entries whose entries
    after the compressive ones come in whole groups (of three in the
    surface+subsurface layout, of two in the surface-only layout) the result
    is a permutation of the listing. *)
Theorem new_filelist_permutation (listing : list string) (f0 f1 : string)
    (l : list string) :
  sort listing = f0 :: f1 :: l ->
  (contains "subsurface" f1 && contains "bulk" f0 = true ->
   ((length listing - 12) mod 3 = 0)%nat) ->
  (contains "subsurface" f1 && contains "bulk" f0 = false ->
   contains "surface" f1 = true ->
   ((length listing - 8) mod 2 = 0)%nat) ->
  (exists out, new_filelist listing = Ok out /\ out ≡ₚ listing) /\
  (forall listing', listing' ≡ₚ listing ->
                    new_filelist listing' = new_filelist listing).
Proof.
  intros Hsort H3 H2. split.
  - assert (Hlen : length (sort listing) = length listing)
      by (rewrite sort_Permutation; reflexivity).
    unfold new_filelist. cbv zeta.
    replace (index (sort listing) 1) with (Ok f1)
      by (rewrite Hsort; reflexivity).
    replace (index (sort listing) 0) with (Ok f0)
      by (rewrite Hsort; reflexivity).
    cbn [mbind result_bind].
    destruct (contains "subsurface" f1) eqn:Esub; cbn [mbind result_bind];
      [destruct (contains "bulk" f0) eqn:Ebulk|].
    + specialize (H3 eq_refl).
      apply Nat.Div0.div_exact in H3.
      destruct (triples_Permutation ((length listing - 12) / 3)
                  (drop 12 (sort listing))) as (rows & -> & Hperm).
      { rewrite length_drop, Hlen. exact H3. }
      cbn [mbind result_bind]. eexists. split; [reflexivity|].
      rewrite sort_reverse_Permutation, Hperm, take_drop.
      apply sort_Permutation.
    + specialize (H2 eq_refl).
      destruct (contains "surface" f1) eqn:Esurf.
      * specialize (H2 eq_refl). apply Nat.Div0.div_exact in H2.
        eexists. split; [reflexivity|].
        rewrite sort_reverse_Permutation.
        rewrite (pairs_Permutation ((length listing - 8) / 2))
          by (rewrite length_drop, Hlen; exact H2).
        rewrite take_drop. apply sort_Permutation.
      * cbn [negb]. eexists. split; [reflexivity|].
        rewrite sort_reverse_Permutation, take_drop. apply sort_Permutation.
    + specialize (H2 eq_refl).
      destruct (contains "surface" f1) eqn:Esurf.
      * specialize (H2 eq_refl). apply Nat.Div0.div_exact in H2.
        eexists. split; [reflexivity|].
        rewrite sort_reverse_Permutation.
        rewrite (pairs_Permutation ((length listing - 8) / 2))
          by (rewrite length_drop, Hlen; exact H2).
        rewrite take_drop. apply sort_Permutation.
      * cbn [negb]. eexists. split; [reflexivity|].
        rewrite sort_reverse_Permutation, take_drop. apply sort_Permutation.
  - intros listing' Hperm. unfold new_filelist.
    rewrite (sort_Permutation_eq _ _ Hperm). reflexivity.
Qed.

Lemma new_filelist_permutation_witness :
  (exists out,
     new_filelist ["k"; "b_surface"; "a"; "d"; "c"; "f"; "e"; "h"; "g"; "j"; "i"; "l"]
     = Ok out /\
     out ≡ₚ ["k"; "b_surface"; "a"; "d"; "c"; "f"; "e"; "h"; "g"; "j"; "i"; "l"]) /\
  (forall listing',
     listing' ≡ₚ ["k"; "b_surface"; "a"; "d"; "c"; "f"; "e"; "h"; "g"; "j"; "i"; "l"] ->
     new_filelist listing'
     = new_filelist ["k"; "b_surface"; "a"; "d"; "c"; "f"; "e"; "h"; "g"; "j"; "i"; "l"]).
Proof.
  apply (new_filelist_permutation
           ["k"; "b_surface"; "a"; "d"; "c"; "f"; "e"; "h"; "g"; "j"; "i"; "l"]
           "a" "b_surface" ["c"; "d"; "e"; "f"; "g"; "h"; "i"; "j"; "k"; "l"]).
  - reflexivity.
  - intros H. vm_compute in H. discriminate H.
  - intros _ _. reflexivity.
Defined.

(** C7, as stated, fails: of a surface-only listing of eleven entries the
    last one, k, is dropped; and a listing of one entry raises
    [IndexError]. *)
Lemma odd_tensile_entry_dropped :
  new_filelist ["a"; "b_surface"; "c"; "d"; "e"; "f"; "g"; "h"; "i"; "j"; "k"]
  = Ok ["h"; "g"; "f"; "e"; "d"; "c"; "b_surface"; "a"; "j"; "i"] /\
  ~ (["h"; "g"; "f"; "e"; "d"; "c"; "b_surface"; "a"; "j"; "i"]
     ≡ₚ ["a"; "b_surface"; "c"; "d"; "e"; "f"; "g"; "h"; "i"; "j"; "k"]) /\
  new_filelist ["a"] = Raise IndexError.
Proof.
  split; [reflexivity|]. split; [|reflexivity].
  intros H. apply Permutation_length in H. discriminate H.
Qed.

(** * Further properties *)

(** ** Reading a series *)

Lemma mapM_length {A B} (f : A -> result B) (l : list A) (r : list B) :
  mapM f l = Ok r -> length r = length l.
Proof. intros H. apply mapM_Ok, Forall2_length in H. auto. Qed.

Lemma mapM_Forall2 {A B} (f : A -> result B) (l : list A) (r : list B) :
  Forall2 (fun a c => f a = Ok c) l r -> mapM f l = Ok r.
Proof.
  induction 1 as [|a c l r Ha _ IH]; simpl; [reflexivity|].
  rewrite Ha. simpl. rewrite IH. reflexivity.
Qed.

(** A map of two steps in a row is the map of the first step followed by
    the map of the second. *)
Lemma mapM_bind_Ok {A B C} (f : A -> result B) (g : B -> result C)
    (l : list A) (r : list C) :
  mapM (fun a => f a ≫= g) l = Ok r <->
  exists m, mapM f l = Ok m /\ mapM g m = Ok r.
Proof.
  split.
  - intros H. apply mapM_Ok in H.
    induction H as [|a c l r Ha _ (m & Hm & Hr)].
    + exists []. split; reflexivity.
    + apply bind_Ok in Ha as (b & Hb & Hg).
      exists (b :: m). simpl. rewrite Hb, Hm. simpl. rewrite Hg, Hr. auto.
  - intros (m & Hm & Hr). apply mapM_Ok in Hm. apply mapM_Ok in Hr.
    apply mapM_Forall2. revert r Hr.
    induction Hm as [|a b l m Ha _ IH]; intros r Hr; inversion Hr; subst.
    + constructor.
    + constructor; [rewrite Ha; assumption | auto].
Qed.

(** An array that [extract_dos] reads has one entry per point. *)
Lemma extract_dos_length band key a :
  extract_dos band key = Ok a -> length a = length (children band).
Proof.
  unfold extract_dos. intros H. apply bind_Ok in H as (i & _ & H).
  apply (mapM_length _ _ _ H).
Qed.

Lemma raw_curve_lengths band x y :
  raw_curve band = Ok (x, y) -> length x = length y.
Proof.
  unfold raw_curve. intros H.
  apply bind_Ok in H as (e & He & H). apply bind_Ok in H as (d & Hd & H).
  injection H as <- <-.
  rewrite (extract_dos_length _ _ _ He), (extract_dos_length _ _ _ Hd). reflexivity.
Qed.

(** X2: the two readers agree: [XcdFile.get_xy] returns the arrays [(x, y)]
    for a band exactly when the band is stored in the file and [extract_dos]
    reads [x] as its energies and [y] as its intensities. *)
Theorem get_xy_extract_dos (self : XcdFile) (band : string) (x y : ndarray) :
  get_xy self band = Ok (x, y) <->
  exists b, dict_get (bands self) band = Ok b /\
            extract_dos b "e" = Ok x /\ extract_dos b "dos" = Ok y.
Proof.
  unfold get_xy, extract_dos. simpl. split.
  - intros H. apply bind_Ok in H as (b & Hb & H).
    apply bind_Ok in H as (xys & Hxys & H).
    apply bind_Ok in H as (x' & Hx & H).
    apply bind_Ok in H as (y' & Hy & H).
    injection H as <- <-. exists b. split; [exact Hb|].
    split; apply (mapM_bind_Ok attrib_XY); eauto.
  - intros (b & Hb & Hx & Hy). rewrite Hb. simpl.
    apply (mapM_bind_Ok attrib_XY) in Hx as (xys & Hxys & Hx).
    apply (mapM_bind_Ok attrib_XY) in Hy as (xys' & Hxys' & Hy).
    assert (xys' = xys) as -> by congruence.
    rewrite Hxys. simpl. rewrite Hx. simpl. rewrite Hy. reflexivity.
Qed.

(** ** Dictionaries *)

Lemma dict_get_set {V} (d : dict V) (k k' : string) (v : V) :
  dict_get (dict_set d k v) k' = if String.eqb k k' then Ok v else dict_get d k'.
Proof.
  induction d as [|[k0 v0] d IH]; simpl.
  - reflexivity.
  - destruct (String.eqb k0 k) eqn:E0; simpl.
    + apply String.eqb_eq in E0 as ->. destruct (String.eqb k k'); reflexivity.
    + rewrite IH. destruct (String.eqb k0 k') eqn:E1; [|reflexivity].
      apply String.eqb_eq in E1 as ->. rewrite String.eqb_sym, E0. reflexivity.
Qed.

Lemma dict_get_Raise {V} (d : dict V) (k : string) (e : exn) :
  dict_get d k = Raise e -> e = KeyError.
Proof.
  induction d as [|[k0 v0] d IH]; simpl; [congruence|].
  destruct (String.eqb k0 k); [discriminate | exact IH].
Qed.

Lemma mapM_Raise {A B} (f : A -> result B) (l : list A) (e : exn) :
  mapM f l = Raise e -> exists a, a ∈ l /\ f a = Raise e.
Proof.
  induction l as [|a l IH]; simpl; [discriminate|].
  destruct (f a) as [b|e'] eqn:Ea; simpl.
  - destruct (mapM f l) as [bs|e'']; simpl; [discriminate|].
    intros H. injection H as ->. destruct IH as (a' & Hin & Ha'); [reflexivity|].
    exists a'. split; [right; exact Hin | exact Ha'].
  - intros H. injection H as ->. exists a. split; [left | exact Ea].
Qed.

(** ** ReadDOS.XcdFile *)

Section XcdFileInit.

Variable ET_parse : string -> result Element.

(** One step of the dictionary comprehension of [XcdFile.__init__]. *)
Let step (acc : result (dict Element)) (band : Element) : result (dict Element) :=
  d ← acc;
  n ← attrib_Name band;
  k ← match n with
      | EmptyString => Raise IndexError
      | String c _ => Ok (String c EmptyString)
      end;
  Ok (dict_set d k band).

Lemma step_Raise e l : foldl step (Raise e) l = Raise e.
Proof. induction l as [|b l IH]; simpl; [reflexivity | exact IH]. Qed.

Lemma step_Ok d0 band d :
  step (Ok d0) band = Ok d ->
  exists k, initial band = Some k /\ d = dict_set d0 k band.
Proof.
  destruct band as [t [[|c n]|] xy cs]; simpl; try discriminate.
  intros H. injection H as <-. eauto.
Qed.

Lemma foldl_step_lookup l d0 d k :
  foldl step (Ok d0) l = Ok d ->
  dict_get d k =
  match last (List.filter (fun b => bool_decide (initial b = Some k)) l) with
  | Some b => Ok b
  | None => dict_get d0 k
  end.
Proof.
  revert d0. induction l as [|b l IH]; intros d0 H.
  - injection H as <-. reflexivity.
  - change (foldl step (step (Ok d0) b) l = Ok d) in H.
    destruct (step (Ok d0) b) as [d1|e] eqn:E; [|rewrite step_Raise in H; discriminate].
    apply step_Ok in E as (kb & Hkb & ->).
    rewrite (IH _ H). simpl. rewrite Hkb.
    destruct (decide (kb = k)) as [->|Hne].
    + rewrite bool_decide_eq_true_2 by reflexivity. rewrite last_cons.
      destruct (last _); [reflexivity|].
      rewrite dict_get_set, String.eqb_refl. reflexivity.
    + rewrite bool_decide_eq_false_2 by congruence.
      destruct (last _); [reflexivity|].
      rewrite dict_get_set. apply String.eqb_neq in Hne. rewrite Hne. reflexivity.
Qed.

(** X3: [XcdFile.__init__] keys the series by the first character of their
    names, and a later series replaces an earlier one of the same key:
    looking a key up gives the last series of the document whose name starts
    with it, and [KeyError] when there is none. *)
Theorem XcdFile_init_keeps_last_series (p : string) (root : Element)
    (self : XcdFile) (k : string) :
  ET_parse p = Ok root ->
  XcdFile_init ET_parse p = Ok self ->
  dict_get (bands self) k =
  match last (List.filter (fun b => bool_decide (initial b = Some k))
                          (findall root "SERIES_2D")) with
  | Some b => Ok b
  | None => Raise KeyError
  end.
Proof.
  intros HET. unfold XcdFile_init. rewrite HET.
  intros H. apply bind_Ok in H as (bs & Hbs & H). injection H as <-. simpl.
  apply (foldl_step_lookup _ [] bs k Hbs).
Qed.

End XcdFileInit.

(** In a spin-resolved document the second series of each orbital is the
    one that is kept. *)
Lemma XcdFile_init_keeps_last_series_witness :
  dict_get (bands {| path := "a.xcd";
                     bands := [("s", series "s" [(0, 3); (1, 4)]%Q);
                               ("p", series "p" [(0, 7); (1, 8)]%Q);
                               ("d", series "d" [(1, 1); (3, 1)]%Q)] |}) "s" =
  match last (List.filter (fun b => bool_decide (initial b = Some "s"))
                          (findall doc_centers_1_2 "SERIES_2D")) with
  | Some b => Ok b
  | None => Raise KeyError
  end.
Proof.
  apply (XcdFile_init_keeps_last_series (fun _ => Ok doc_centers_1_2) "a.xcd"
           doc_centers_1_2); reflexivity.
Defined.

Lemma bind_Raise {A B} (r : result A) (k : A -> result B) (e : exn) :
  r ≫= k = Raise e -> r = Raise e \/ exists a, r = Ok a /\ k a = Raise e.
Proof. destruct r as [a|e']; simpl; [eauto | intros [= ->]; auto]. Qed.

Lemma attrib_XY_Raise item e : attrib_XY item = Raise e -> e = KeyError.
Proof. destruct item as [t n [[f fs]|] cs]; simpl; congruence. Qed.

Lemma index_Raise {A} (l : list A) i e : index l i = Raise e -> e = IndexError.
Proof. unfold index. destruct (l !! i); congruence. Qed.

Lemma float_Raise f e : float f = Raise e -> e = ValueError.
Proof. destruct f; simpl; congruence. Qed.

(** ** pandas tables *)

Lemma pd_concat_names frames : map fst (pd_concat frames) = map fst (concat frames).
Proof.
  unfold pd_concat. rewrite map_map. reflexivity.
Qed.

(** Every column of a table has the length of the longest array. *)
Lemma pd_concat_lengths frames c :
  c ∈ pd_concat frames ->
  length (snd c) = max_list (map (fun c => length (snd c)) (concat frames)).
Proof.
  unfold pd_concat. intros Hc.
  apply list_elem_of_fmap in Hc as ([k v] & -> & Hin). simpl.
  rewrite length_app, length_map, length_replicate.
  assert (length v ≤ max_list (map (fun c => length (snd c)) (concat frames)))%nat.
  { apply max_list_elem_of_le, list_elem_of_fmap. exists (k, v). auto. }
  lia.
Qed.

(** X5: [XcdFile.get_dos_df] returns a table only for a file in which all
    of the bands s, p, d and f can be read; the table then has the columns
    se, sdos, pe, pdos, de, ddos, fe, fdos, all of one length. *)
Theorem get_dos_df_needs_four_bands (self : XcdFile)
    (df : list (string * list (option Q))) :
  get_dos_df self = Ok df ->
  (forall band, band ∈ ["s"; "p"; "d"; "f"] ->
                exists x y, get_xy self band = Ok (x, y)) /\
  map fst df = ["se"; "sdos"; "pe"; "pdos"; "de"; "ddos"; "fe"; "fdos"] /\
  (forall c1 c2, c1 ∈ df -> c2 ∈ df -> length (snd c1) = length (snd c2)).
Proof.
  unfold get_dos_df. intros H.
  apply bind_Ok in H as ([s_e s_dos] & Hs & H).
  apply bind_Ok in H as ([p_e p_dos] & Hp & H).
  apply bind_Ok in H as ([d_e d_dos] & Hd & H).
  apply bind_Ok in H as ([f_e f_dos] & Hf & H).
  injection H as <-. split; [|split].
  - intros band Hin.
    repeat (apply elem_of_cons in Hin as [->|Hin]; [eauto|]).
    inversion Hin.
  - rewrite pd_concat_names. reflexivity.
  - intros c1 c2 H1 H2.
    rewrite (pd_concat_lengths _ _ H1), (pd_concat_lengths _ _ H2). reflexivity.
Qed.

Lemma get_dos_df_needs_four_bands_witness :
  (forall band, band ∈ ["s"; "p"; "d"; "f"] ->
     exists x y,
       get_xy {| path := "a.xcd";
                 bands := [("s", series "s" [(0, 1)]%Q); ("p", series "p" [(0, 1); (1, 2)]%Q);
                           ("d", series "d" []); ("f", series "f" [(0, 3)]%Q)] |} band
       = Ok (x, y)) /\
  map fst [("se", [Some 0%Q; None]); ("sdos", [Some 1%Q; None]);
           ("pe", [Some 0%Q; Some 1%Q]); ("pdos", [Some 1%Q; Some 2%Q]);
           ("de", [None; None]); ("ddos", [None; None]);
           ("fe", [Some 0%Q; None]); ("fdos", [Some 3%Q; None])]
  = ["se"; "sdos"; "pe"; "pdos"; "de"; "ddos"; "fe"; "fdos"] /\
  (forall c1 c2,
     c1 ∈ [("se", [Some 0%Q; None]); ("sdos", [Some 1%Q; None]);
           ("pe", [Some 0%Q; Some 1%Q]); ("pdos", [Some 1%Q; Some 2%Q]);
           ("de", [None; None]); ("ddos", [None; None]);
           ("fe", [Some 0%Q; None]); ("fdos", [Some 3%Q; None])] ->
     c2 ∈ [("se", [Some 0%Q; None]); ("sdos", [Some 1%Q; None]);
           ("pe", [Some 0%Q; Some 1%Q]); ("pdos", [Some 1%Q; Some 2%Q]);
           ("de", [None; None]); ("ddos", [None; None]);
           ("fe", [Some 0%Q; None]); ("fdos", [Some 3%Q; None])] ->
     length (snd c1) = length (snd c2)).
Proof.
  apply (get_dos_df_needs_four_bands
           {| path := "a.xcd";
              bands := [("s", series "s" [(0, 1)]%Q); ("p", series "p" [(0, 1); (1, 2)]%Q);
                        ("d", series "d" []); ("f", series "f" [(0, 3)]%Q)] |}).
  reflexivity.
Defined.

(** ** read_spin_dos.parse_xcd *)

Lemma raw_curve_Raise_entry bands src band e eName dName negate :
  dict_get bands src = Ok band -> raw_curve band = Raise e ->
  entry bands src eName dName negate = Raise e.
Proof.
  intros Hb Hc. unfold entry. rewrite Hb. simpl.
  unfold raw_curve in Hc.
  destruct (extract_dos band "e") as [x|e1]; simpl in *; [|congruence].
  destruct (extract_dos band "dos") as [y|e2]; simpl in *; congruence.
Qed.

(** Decides the raw curve of the series [b] stored under [src]: either it
    is read, and the calls of [entry] on it are replaced, or the goal has a
    call of [entry] that raises. *)
Ltac read_curve src b :=
  let x := fresh "x" in
  let y := fresh "y" in
  let e := fresh "e" in
  let E := fresh "E" in
  destruct (raw_curve b) as [[x y]|e] eqn:E;
  [ repeat (rewrite (entry_Ok _ src b x y) by first [assumption | reflexivity]);
    simpl
  | repeat (rewrite (raw_curve_Raise_entry _ src b e)
              by first [assumption | reflexivity]);
    simpl; try discriminate ].

Section ParseXcdTable.

Variable ET_parse : string -> result Element.

(** [parse_xcd] builds a table only from a well-formed document of four or
    of six series. *)
Lemma parse_xcd_DOS_Ok path root DOS :
  ET_parse path = Ok root ->
  parse_xcd_DOS ET_parse path = Ok DOS ->
  exists cs, well_formed root cs /\
             (length cs = 4%nat \/ length cs = 6%nat) /\
             DOS = reconciled cs.
Proof.
  intros HET. unfold parse_xcd_DOS, band_extract, well_formed. rewrite HET. simpl.
  destruct (findall root "SERIES_2D")
    as [|b0 [|b1 [|b2 [|b3 [|b4 [|b5 [|b6 l]]]]]]]; simpl; try discriminate.
  - read_curve "s_alpha" b0. read_curve "s_beta" b1.
    read_curve "p_alpha" b2. read_curve "p_beta" b3.
    intros H. injection H as <-.
    exists [(x, y); (x0, y0); (x1, y1); (x2, y2)]. auto.
  - read_curve "s_alpha" b0. read_curve "s_beta" b1.
    read_curve "p_alpha" b2. read_curve "p_beta" b3.
    read_curve "d_alpha" b4. read_curve "d_beta" b5.
    intros H.
    exists [(x, y); (x0, y0); (x1, y1); (x2, y2); (x3, y3); (x4, y4)].
    split; [reflexivity|]. split; [auto|].
    simpl. destruct (fgt (dcenter x3 y3) (dcenter x4 (neg y4)));
      injection H as <-; reflexivity.
Qed.

(** X6: [parse_xcd] returns a table exactly for the well-formed documents
    of four or of six series (every point of every series with its two
    coordinates, both accepted by [float]); for any other document that
    parses it raises. *)
Theorem parse_xcd_Ok_iff_well_formed (path : string) (root : Element) :
  ET_parse path = Ok root ->
  (exists table, parse_xcd ET_parse path = Ok table) <->
  (exists cs, well_formed root cs /\ (length cs = 4%nat \/ length cs = 6%nat)).
Proof.
  intros HET. split.
  - intros [table H]. unfold parse_xcd in H.
    apply bind_Ok in H as (DOS & HDOS & _).
    destruct (parse_xcd_DOS_Ok path root DOS HET HDOS) as (cs & Hwf & Hlen & _).
    eauto.
  - intros (cs & Hwf & Hlen). unfold parse_xcd.
    rewrite (parse_xcd_DOS_reconciled ET_parse path root cs HET Hwf Hlen).
    simpl. eauto.
Qed.

End ParseXcdTable.

Lemma parse_xcd_Ok_iff_well_formed_witness :
  (exists table, parse_xcd (fun _ => Ok doc_centers_tie) "a.xcd" = Ok table) <->
  (exists cs, well_formed doc_centers_tie cs /\
              (length cs = 4%nat \/ length cs = 6%nat)).
Proof.
  apply (parse_xcd_Ok_iff_well_formed (fun _ => Ok doc_centers_tie) "a.xcd").
  reflexivity.
Defined.

Lemma reconciled_names cs :
  length cs = 4%nat \/ length cs = 6%nat ->
  map fst (concat (map snd (reconciled cs))) =
  take (2 * length cs)
       ["sE_alpha"; "s_alpha"; "sE_beta"; "s_beta"; "pE_alpha"; "p_alpha";
        "pE_beta"; "p_beta"; "dE_alpha"; "d_alpha"; "dE_beta"; "d_beta"].
Proof.
  intros [H|H];
    destruct cs as [|[x0 y0] [|[x1 y1] [|[x2 y2] [|[x3 y3] rest]]]];
    try discriminate.
  - destruct rest; [reflexivity | discriminate].
  - destruct rest as [|[x4 y4] [|[x5 y5] [|]]]; try discriminate.
    unfold reconciled. destruct (fgt _ _); reflexivity.
Qed.

Lemma reconciled_energies cs :
  length cs = 4%nat \/ length cs = 6%nat ->
  take 4 (map (fun e => frame_energy (snd e)) (reconciled cs)) = take 4 (map fst cs) /\
  map (fun e => frame_energy (snd e)) (reconciled cs) ≡ₚ map fst cs.
Proof.
  intros [H|H];
    destruct cs as [|[x0 y0] [|[x1 y1] [|[x2 y2] [|[x3 y3] rest]]]];
    try discriminate.
  - destruct rest; [split; reflexivity | discriminate].
  - destruct rest as [|[x4 y4] [|[x5 y5] [|]]]; try discriminate.
    unfold reconciled. destruct (fgt _ _); simpl; split; try reflexivity.
    do 4 apply perm_skip. apply perm_swap.
Qed.

Lemma well_formed_length root cs :
  well_formed root cs -> length cs = length (findall root "SERIES_2D").
Proof. apply mapM_length. Qed.

(** X7: the columns of a table that [parse_xcd] returns are fixed by the
    number of series alone.  For four series they are sE_alpha, s_alpha,
    sE_beta, s_beta, pE_alpha, p_alpha, pE_beta, p_beta; for six series
    these are followed by dE_alpha, d_alpha, dE_beta, d_beta, in this order
    whether or not the d pair was exchanged.  All columns have one length. *)
Theorem parse_xcd_columns (ET_parse : string -> result Element) (path : string)
    (root : Element) (table : list (string * list (option Q))) :
  ET_parse path = Ok root ->
  parse_xcd ET_parse path = Ok table ->
  ((length (findall root "SERIES_2D") = 4%nat /\
    map fst table =
      ["sE_alpha"; "s_alpha"; "sE_beta"; "s_beta"; "pE_alpha"; "p_alpha";
       "pE_beta"; "p_beta"]) \/
   (length (findall root "SERIES_2D") = 6%nat /\
    map fst table =
      ["sE_alpha"; "s_alpha"; "sE_beta"; "s_beta"; "pE_alpha"; "p_alpha";
       "pE_beta"; "p_beta"; "dE_alpha"; "d_alpha"; "dE_beta"; "d_beta"])) /\
  (forall c1 c2, c1 ∈ table -> c2 ∈ table -> length (snd c1) = length (snd c2)).
Proof.
  intros HET. unfold parse_xcd. intros H. apply bind_Ok in H as (DOS & HDOS & H).
  injection H as <-. split.
  - destruct (parse_xcd_DOS_Ok ET_parse path root DOS HET HDOS)
      as (cs & Hwf & Hlen & ->).
    rewrite pd_concat_names, (reconciled_names cs Hlen).
    rewrite <- (well_formed_length root cs Hwf).
    destruct Hlen as [Hlen|Hlen]; rewrite Hlen; [left | right]; split; reflexivity.
  - intros c1 c2 H1 H2.
    rewrite (pd_concat_lengths _ _ H1), (pd_concat_lengths _ _ H2). reflexivity.
Qed.

(** The document with the d pair exchanged. *)
Lemma parse_xcd_columns_witness :
  ((length (findall doc_centers_2_1 "SERIES_2D") = 4%nat /\
    map fst (pd_concat (map snd (reconciled
      [([0; 1], [1; 2]); ([0; 1], [3; 4]); ([0; 1], [5; 6]); ([0; 1], [7; 8]);
       ([1; 3], [1; 1]); ([0; 2], [1; 1])]%Q))) =
      ["sE_alpha"; "s_alpha"; "sE_beta"; "s_beta"; "pE_alpha"; "p_alpha";
       "pE_beta"; "p_beta"]) \/
   (length (findall doc_centers_2_1 "SERIES_2D") = 6%nat /\
    map fst (pd_concat (map snd (reconciled
      [([0; 1], [1; 2]); ([0; 1], [3; 4]); ([0; 1], [5; 6]); ([0; 1], [7; 8]);
       ([1; 3], [1; 1]); ([0; 2], [1; 1])]%Q))) =
      ["sE_alpha"; "s_alpha"; "sE_beta"; "s_beta"; "pE_alpha"; "p_alpha";
       "pE_beta"; "p_beta"; "dE_alpha"; "d_alpha"; "dE_beta"; "d_beta"])) /\
  (forall c1 c2,
     c1 ∈ pd_concat (map snd (reconciled
      [([0; 1], [1; 2]); ([0; 1], [3; 4]); ([0; 1], [5; 6]); ([0; 1], [7; 8]);
       ([1; 3], [1; 1]); ([0; 2], [1; 1])]%Q)) ->
     c2 ∈ pd_concat (map snd (reconciled
      [([0; 1], [1; 2]); ([0; 1], [3; 4]); ([0; 1], [5; 6]); ([0; 1], [7; 8]);
       ([1; 3], [1; 1]); ([0; 2], [1; 1])]%Q)) ->
     length (snd c1) = length (snd c2)).
Proof.
  apply (parse_xcd_columns (fun _ => Ok doc_centers_2_1) "a.xcd" doc_centers_2_1);
    reflexivity.
Defined.

Lemma well_formed_lengths root cs :
  well_formed root cs -> Forall (fun c => length (fst c) = length (snd c)) cs.
Proof.
  unfold well_formed. intros Hwf. apply mapM_Ok in Hwf.
  induction Hwf as [|b [x y] bs cs Hb _ IH];
    [constructor | constructor; [apply (raw_curve_lengths b), Hb | exact IH]].
Qed.

(** X1: in the dictionary that [parse_xcd] builds, the two arrays of every
    entry have the same length (one value per point of the series they were
    read from); so the conversion of an entry to a data frame never meets
    arrays of different lengths. *)
Theorem parse_xcd_row_aligned (ET_parse : string -> result Element)
    (path : string) (DOS : dict (dict ndarray)) :
  parse_xcd_DOS ET_parse path = Ok DOS ->
  Forall (fun e => exists eName x dName y,
                     snd e = frame eName x dName y /\ length x = length y) DOS.
Proof.
  intros HDOS.
  assert (exists root, ET_parse path = Ok root) as [root HET].
  { unfold parse_xcd_DOS in HDOS. apply bind_Ok in HDOS as (root & ? & _). eauto. }
  destruct (parse_xcd_DOS_Ok ET_parse path root DOS HET HDOS)
    as (cs & Hwf & Hlen & ->).
  pose proof (well_formed_lengths root cs Hwf) as Hcs.
  assert (Hneg : forall y, length (neg y) = length y)
    by (intros y; unfold neg; apply length_map).
  destruct Hlen as [Hlen|Hlen];
    destruct cs as [|[x0 y0] [|[x1 y1] [|[x2 y2] [|[x3 y3] rest]]]];
    try discriminate;
    inversion Hcs as [|? ? H0 Hcs0]; subst;
    inversion Hcs0 as [|? ? H1 Hcs1]; subst;
    inversion Hcs1 as [|? ? H2 Hcs2]; subst;
    inversion Hcs2 as [|? ? H3 Hcs3]; subst; simpl in *.
  - destruct rest; [|discriminate].
    repeat constructor; do 4 eexists; (split; [reflexivity|]);
      rewrite ?Hneg; assumption.
  - destruct rest as [|[x4 y4] [|[x5 y5] [|]]]; try discriminate.
    inversion Hcs3 as [|? ? H4 Hcs4]; subst.
    inversion Hcs4 as [|? ? H5 _]; subst. simpl in *.
    destruct (fgt (dcenter x4 y4) (dcenter x5 (neg y5)));
      repeat constructor; do 4 eexists; (split; [reflexivity|]);
      rewrite ?Hneg; assumption.
Qed.

Lemma parse_xcd_row_aligned_witness :
  Forall (fun e => exists eName x dName y,
                     snd e = frame eName x dName y /\ length x = length y)
    (reconciled
       [([0; 1], [1; 2]); ([0; 1], [3; 4]); ([0; 1], [5; 6]); ([0; 1], [7; 8]);
        ([1; 3], [1; 1]); ([0; 2], [1; 1])]%Q).
Proof.
  apply (parse_xcd_row_aligned (fun _ => Ok doc_centers_2_1) "a.xcd").
  reflexivity.
Defined.

(** X8: the energy axes pass through [parse_xcd] untouched: for a
    well-formed document the energy columns of s and p are the raw energy
    arrays in their places, and the energy columns of the whole table are the
    raw energy arrays, the two of d possibly exchanged; none is negated,
    dropped or used twice. *)
Theorem parse_xcd_keeps_energies (ET_parse : string -> result Element)
    (path : string) (root : Element) (cs : list curve)
    (DOS : dict (dict ndarray)) :
  ET_parse path = Ok root ->
  well_formed root cs ->
  parse_xcd_DOS ET_parse path = Ok DOS ->
  take 4 (map (fun e => frame_energy (snd e)) DOS) = take 4 (map fst cs) /\
  map (fun e => frame_energy (snd e)) DOS ≡ₚ map fst cs.
Proof.
  intros HET Hwf HDOS.
  destruct (parse_xcd_DOS_Ok ET_parse path root DOS HET HDOS)
    as (cs' & Hwf' & Hlen & ->).
  assert (cs' = cs) as -> by (unfold well_formed in *; congruence).
  apply reconciled_energies, Hlen.
Qed.

Lemma parse_xcd_keeps_energies_witness :
  take 4 (map (fun e => frame_energy (snd e))
            (reconciled [([0; 1], [1; 2]); ([0; 1], [3; 4]); ([0; 1], [5; 6]);
                         ([0; 1], [7; 8]); ([1; 3], [1; 1]); ([0; 2], [1; 1])]%Q)) =
  take 4 (map fst [([0; 1], [1; 2]); ([0; 1], [3; 4]); ([0; 1], [5; 6]);
                   ([0; 1], [7; 8]); ([1; 3], [1; 1]); ([0; 2], [1; 1])]%Q) /\
  map (fun e => frame_energy (snd e))
    (reconciled [([0; 1], [1; 2]); ([0; 1], [3; 4]); ([0; 1], [5; 6]);
                 ([0; 1], [7; 8]); ([1; 3], [1; 1]); ([0; 2], [1; 1])]%Q)
  ≡ₚ map fst [([0; 1], [1; 2]); ([0; 1], [3; 4]); ([0; 1], [5; 6]);
              ([0; 1], [7; 8]); ([1; 3], [1; 1]); ([0; 2], [1; 1])]%Q.
Proof.
  apply (parse_xcd_keeps_energies (fun _ => Ok doc_centers_2_1) "a.xcd"
           doc_centers_2_1); reflexivity.
Defined.

Lemma np_trapz_short y x :
  (length x <= 1)%nat \/ (length y <= 1)%nat -> np_trapz y x = 0%Q.
Proof.
  unfold np_trapz. intros [H|H].
  - destruct x as [|a [|b x]]; simpl in H; try lia; reflexivity.
  - assert (tail y = []) as -> by (destruct y as [|a [|b y]]; simpl in H; try lia; reflexivity).
    simpl. destruct (np_diff x); reflexivity.
Qed.

Lemma arr_mul_short y x :
  (length x <= 1)%nat \/ (length y <= 1)%nat ->
  (length x <= 1)%nat \/ (length (arr_mul y x) <= 1)%nat.
Proof.
  intros [H|H]; [left; exact H|right].
  unfold arr_mul. rewrite length_zip_with. lia.
Qed.

(** ** Curves without a centre *)

Lemma zero_related y : Forall (fun v => v == 0)%Q y -> Forall2 (times 0) y y.
Proof.
  induction 1 as [|v y Hv _ IH]; constructor; [|exact IH].
  unfold times. rewrite Hv. ring.
Qed.

Lemma fdiv_zero (n d : Q) : (n == 0)%Q -> (d == 0)%Q -> fdiv n d = NaN.
Proof.
  intros Hn Hd. unfold fdiv.
  apply Qeq_bool_iff in Hn, Hd. rewrite Hn, Hd. reflexivity.
Qed.

(** X9: a curve of zero intensity on any energy axis, and a curve of fewer
    than two points, has no band centre: [dcenter] returns NaN for it. *)
Theorem dcenter_nan (x y : ndarray) :
  Forall (fun v => v == 0)%Q y \/ (length x <= 1)%nat \/ (length y <= 1)%nat ->
  dcenter x y = NaN.
Proof.
  intros [Hz|Hshort]; unfold dcenter; apply fdiv_zero.
  - rewrite (np_trapz_related 0 _ _ x (related_mul 0 y y x (zero_related y Hz))). ring.
  - rewrite (np_trapz_related 0 _ _ x (zero_related y Hz)). ring.
  - rewrite (np_trapz_short _ _ (arr_mul_short y x Hshort)). reflexivity.
  - rewrite (np_trapz_short _ _ Hshort). reflexivity.
Qed.

Lemma dcenter_nan_witness : dcenter [0; 1; 5]%Q [0; 0; 0]%Q = NaN.
Proof.
  apply (dcenter_nan [0; 1; 5]%Q [0; 0; 0]%Q).
  left. repeat constructor.
Defined.





(** ** The ordering of the files, layout by layout *)

Lemma list_ind3 {A} (P : list A -> Prop) :
  P [] -> (forall a, P [a]) -> (forall a b, P [a; b]) ->
  (forall a b c l, P l -> P (a :: b :: c :: l)) ->
  forall l, P l.
Proof.
  intros H0 H1 H2 H3 l.
  assert (P l /\ (forall a, P (a :: l)) /\ (forall a b, P (a :: b :: l))) as [H _].
  { induction l as [|c l (IH0 & IH1 & IH2)]; [auto|]. auto. }
  exact H.
Qed.

Lemma list_ind2 {A} (P : list A -> Prop) :
  P [] -> (forall a, P [a]) -> (forall a b l, P l -> P (a :: b :: l)) ->
  forall l, P l.
Proof.
  intros H0 H1 H2 l.
  assert (P l /\ (forall a, P (a :: l))) as [H _].
  { induction l as [|b l (IH0 & IH1)]; [auto|]. auto. }
  exact H.
Qed.

(** The rows of the surface+subsurface layout, flattened: every whole group
    of three reversed.  No row is out of range. *)
Lemma rows_reverse_triples (t : list string) :
  exists rows,
    mapM (fun i => a ← index (slice_from_step t 2 3) i;
                   b ← index (slice_from_step t 1 3) i;
                   c ← index (slice_from_step t 0 3) i; Ok [a; b; c])
         (seq 0 (length (slice_from_step t 2 3))) = Ok rows /\
    concat rows = reverse_triples t.
Proof.
  induction t as [|a|a b|a b c t (rows & Hrows & Hcat)] using list_ind3;
    try (exists []; split; reflexivity).
  exists ([c; b; a] :: rows). split.
  - unfold slice_from_step in *. simpl. rewrite mapM_seq_S. simpl.
    exact (f_equal (fun r => r ≫= (fun k => Ok ([c; b; a] :: k))) Hrows).
  - simpl. rewrite Hcat. reflexivity.
Qed.

Lemma pairs_swap_pairs (t : list string) :
  concat (zip_with (fun a b => [a; b])
            (slice_from_step t 1 2) (slice_from_step t 0 2)) = swap_pairs t.
Proof.
  induction t as [|a|a b t IH] using list_ind2; try reflexivity.
  unfold slice_from_step in *. simpl. rewrite IH. reflexivity.
Qed.

(** What [new_filelist] returns for a listing of at least two entries. *)
Lemma new_filelist_layout listing f0 f1 l :
  sort listing = f0 :: f1 :: l ->
  new_filelist listing =
  Ok (if contains "subsurface" f1 && contains "bulk" f0
      then reverse (take 12 (sort listing)) ++ reverse_triples (drop 12 (sort listing))
      else if contains "surface" f1
      then reverse (take 8 (sort listing)) ++ swap_pairs (drop 8 (sort listing))
      else reverse (take 4 (sort listing)) ++ drop 4 (sort listing)).
Proof.
  intros Hsort. unfold new_filelist. cbv zeta.
  replace (index (sort listing) 1) with (Ok f1) by (rewrite Hsort; reflexivity).
  replace (index (sort listing) 0) with (Ok f0) by (rewrite Hsort; reflexivity).
  rewrite !sort_reverse_Sorted by apply Sorted_take, Sorted_sort.
  rewrite pairs_swap_pairs.
  destruct (rows_reverse_triples (drop 12 (sort listing))) as (rows & -> & Hcat).
  cbn [mbind result_bind]. rewrite Hcat.
  destruct (contains "subsurface" f1); cbn [mbind result_bind andb];
    [destruct (contains "bulk" f0); cbn [mbind result_bind]|];
    try reflexivity;
    destruct (contains "surface" f1); reflexivity.
Qed.

Lemma sort_length listing : length (sort listing) = length listing.
Proof. rewrite sort_Permutation. reflexivity. Qed.

Lemma sort_two listing :
  (2 <= length listing)%nat -> exists f0 f1 l, sort listing = f0 :: f1 :: l.
Proof.
  intros H. rewrite <- sort_length in H.
  destruct (sort listing) as [|f0 [|f1 l]]; simpl in H; try lia. eauto.
Qed.

(** X14: [new_filelist] returns an ordering exactly for a listing of at
    least two entries; for a shorter listing reading [filelist[1]] raises
    [IndexError]. *)
Theorem new_filelist_Ok_iff (listing : list string) :
  ((exists out, new_filelist listing = Ok out) <-> (2 <= length listing)%nat) /\
  (new_filelist listing = Raise IndexError <-> (length listing < 2)%nat).
Proof.
  destruct (le_lt_dec 2 (length listing)) as [H|H].
  - destruct (sort_two listing H) as (f0 & f1 & l & Hsort).
    rewrite (new_filelist_layout listing f0 f1 l Hsort).
    split; split; intros; try lia; try discriminate; eauto.
  - assert (new_filelist listing = Raise IndexError) as ->.
    { unfold new_filelist. cbv zeta.
      replace (index (sort listing) 1) with (@Raise string IndexError); [reflexivity|].
      unfold index.
      rewrite (proj2 (lookup_ge_None (sort listing) 1)) by (rewrite sort_length; lia).
      reflexivity. }
    split; split; intros; try lia; try reflexivity.
    destruct H0 as [out H0]. discriminate.
Qed.

Lemma contains_unfold sub s :
  contains sub s =
  String.prefix sub s ||
  match s with
  | EmptyString => false
  | String _ s' => contains sub s'
  end.
Proof. destruct s; reflexivity. Qed.

Lemma prefix_app_contains a b s :
  String.prefix (a +:+ b) s = true -> contains b s = true.
Proof.
  revert s. induction a as [|c a IH]; intros s H.
  - change (EmptyString +:+ b) with b in H.
    rewrite contains_unfold, H. reflexivity.
  - change (String c a +:+ b) with (String c (a +:+ b)) in H.
    destruct s as [|c' s]; [discriminate|]. simpl in H.
    destruct (Ascii.ascii_dec c c'); [|discriminate].
    rewrite contains_unfold, (IH s H). apply orb_true_r.
Qed.

(** A string that contains [a +:+ b] contains [b]. *)
Lemma contains_app_r a b s :
  contains (a +:+ b) s = true -> contains b s = true.
Proof.
  induction s as [|c s IH]; rewrite contains_unfold; intros H.
  - apply orb_true_iff in H as [H|H]; [|discriminate].
    exact (prefix_app_contains a b _ H).
  - apply orb_true_iff in H as [H|H]; [exact (prefix_app_contains a b _ H)|].
    rewrite contains_unfold, (IH H). apply orb_true_r.
Qed.

Lemma contains_subsurface s :
  contains "subsurface" s = true -> contains "surface" s = true.
Proof. apply (contains_app_r "sub" "surface"). Qed.

Lemma reverse_triples_submseteq {A} (l : list A) : reverse_triples l ⊆+ l.
Proof.
  induction l as [|a|a b|a b c l IH] using list_ind3;
    try apply submseteq_nil_l.
  simpl. transitivity (a :: b :: c :: reverse_triples l).
  - apply Permutation_submseteq. solve_Permutation.
  - do 3 apply submseteq_skip. exact IH.
Qed.

Lemma swap_pairs_submseteq {A} (l : list A) : swap_pairs l ⊆+ l.
Proof.
  induction l as [|a|a b l IH] using list_ind2; try apply submseteq_nil_l.
  simpl. transitivity (a :: b :: swap_pairs l).
  - apply Permutation_submseteq. solve_Permutation.
  - do 2 apply submseteq_skip. exact IH.
Qed.

Lemma app_submseteq_take_drop {A} n (s a b : list A) :
  a ⊆+ take n s -> b ⊆+ drop n s -> a ++ b ⊆+ s.
Proof. intros Ha Hb. rewrite <- (take_drop n s). apply submseteq_app; assumption. Qed.

(** X15: every ordering that [new_filelist] returns is drawn from the
    listing: an entry of the listing occurs in it at most as often as in the
    listing, and nothing else occurs in it. *)
Theorem new_filelist_submseteq (listing out : list string) :
  new_filelist listing = Ok out -> out ⊆+ listing.
Proof.
  intros H.
  assert (Hlen : (2 <= length listing)%nat).
  { destruct (le_lt_dec 2 (length listing)) as [Hl|Hl]; [exact Hl|].
    unfold new_filelist in H. cbv zeta in H.
    replace (index (sort listing) 1) with (@Raise string IndexError) in H;
      [discriminate|].
    unfold index.
    rewrite (proj2 (lookup_ge_None (sort listing) 1)) by (rewrite sort_length; lia).
    reflexivity. }
  destruct (sort_two listing Hlen) as (f0 & f1 & l & Hsort).
  rewrite (new_filelist_layout listing f0 f1 l Hsort) in H. injection H as <-.
  transitivity (sort listing); [|apply Permutation_submseteq, sort_Permutation].
  destruct (contains "subsurface" f1 && contains "bulk" f0);
    [apply (app_submseteq_take_drop 12)
    |destruct (contains "surface" f1);
     [apply (app_submseteq_take_drop 8) | apply (app_submseteq_take_drop 4)]];
    try (rewrite reverse_Permutation; reflexivity).
  - apply reverse_triples_submseteq.
  - apply swap_pairs_submseteq.
  - reflexivity.
Qed.

Lemma new_filelist_submseteq_witness :
  ["h"; "g"; "f"; "e"; "d"; "c"; "b_surface"; "a"; "j"; "i"]
  ⊆+ ["a"; "b_surface"; "c"; "d"; "e"; "f"; "g"; "h"; "i"; "j"; "k"].
Proof.
  apply (new_filelist_submseteq
           ["a"; "b_surface"; "c"; "d"; "e"; "f"; "g"; "h"; "i"; "j"; "k"]).
  reflexivity.
Defined.

Lemma reverse_triples_lookup {A} (l : list A) (i j : nat) :
  (j < 3)%nat -> (3 * i + 2 < length l)%nat ->
  reverse_triples l !! (3 * i + j)%nat = l !! (3 * i + (2 - j))%nat.
Proof.
  intros Hj. revert l. induction i as [|i IH]; intros l Hl;
    destruct l as [|a [|b [|c l]]]; simpl in Hl; try lia.
  - destruct j as [|[|[|j]]]; try lia; reflexivity.
  - replace (3 * S i + j)%nat with (S (S (S (3 * i + j)))) by lia.
    replace (3 * S i + (2 - j))%nat with (S (S (S (3 * i + (2 - j))))) by lia.
    simpl reverse_triples. simpl lookup. apply IH. lia.
Qed.

Lemma swap_pairs_lookup {A} (l : list A) (i j : nat) :
  (j < 2)%nat -> (2 * i + 1 < length l)%nat ->
  swap_pairs l !! (2 * i + j)%nat = l !! (2 * i + (1 - j))%nat.
Proof.
  intros Hj. revert l. induction i as [|i IH]; intros l Hl;
    destruct l as [|a [|b l]]; simpl in Hl; try lia.
  - destruct j as [|[|j]]; try lia; reflexivity.
  - replace (2 * S i + j)%nat with (S (S (2 * i + j))) by lia.
    replace (2 * S i + (1 - j))%nat with (S (S (2 * i + (1 - j)))) by lia.
    simpl swap_pairs. simpl lookup. apply IH. lia.
Qed.

Lemma sort_lookup_two listing f0 f1 :
  sort listing !! 0%nat = Some f0 -> sort listing !! 1%nat = Some f1 ->
  exists l, sort listing = f0 :: f1 :: l.
Proof.
  destruct (sort listing) as [|g0 [|g1 l]]; simpl; try discriminate.
  intros [= ->] [= ->]. eauto.
Qed.

(** X16: in the surface+subsurface layout (subsurface in the second sorted
    entry, bulk in the first) the first twelve sorted entries come reversed,
    and after them every whole group of three of the other sorted entries
    comes reversed: the entry at place [3i+j] of that part is the sorted
    entry at place [12+3i+(2-j)].  Entries of an incomplete last group are
    left out. *)
Theorem surface_subsurface_order (listing : list string) (f0 f1 : string) :
  sort listing !! 0%nat = Some f0 ->
  sort listing !! 1%nat = Some f1 ->
  contains "subsurface" f1 = true ->
  contains "bulk" f0 = true ->
  new_filelist listing
  = Ok (reverse (take 12 (sort listing)) ++ reverse_triples (drop 12 (sort listing))) /\
  forall i j, (j < 3)%nat -> (12 + 3 * i + 2 < length listing)%nat ->
    reverse_triples (drop 12 (sort listing)) !! (3 * i + j)%nat
    = sort listing !! (12 + 3 * i + (2 - j))%nat.
Proof.
  intros H0 H1 Hsub Hbulk.
  destruct (sort_lookup_two listing f0 f1 H0 H1) as [l Hsort].
  split.
  - rewrite (new_filelist_layout listing f0 f1 l Hsort), Hsub, Hbulk. reflexivity.
  - intros i j Hj Hi. rewrite reverse_triples_lookup, lookup_drop.
    + f_equal; lia.
    + exact Hj.
    + rewrite length_drop, sort_length. lia.
Qed.

Lemma surface_subsurface_order_witness :
  new_filelist ["c00_bulk"; "c01_subsurface"; "c02"; "c03"; "c04"; "c05"; "c06";
                "c07"; "c08"; "c09"; "c10"; "c11"; "t1_bulk"; "t1_subsurface";
                "t1_surface"; "t2_bulk"; "t2_subsurface"; "t2_surface"; "t3_bulk"]
  = Ok (reverse (take 12 (sort
          ["c00_bulk"; "c01_subsurface"; "c02"; "c03"; "c04"; "c05"; "c06";
           "c07"; "c08"; "c09"; "c10"; "c11"; "t1_bulk"; "t1_subsurface";
           "t1_surface"; "t2_bulk"; "t2_subsurface"; "t2_surface"; "t3_bulk"]))
        ++ reverse_triples (drop 12 (sort
          ["c00_bulk"; "c01_subsurface"; "c02"; "c03"; "c04"; "c05"; "c06";
           "c07"; "c08"; "c09"; "c10"; "c11"; "t1_bulk"; "t1_subsurface";
           "t1_surface"; "t2_bulk"; "t2_subsurface"; "t2_surface"; "t3_bulk"]))) /\
  forall i j, (j < 3)%nat ->
    (12 + 3 * i + 2 < length
       ["c00_bulk"; "c01_subsurface"; "c02"; "c03"; "c04"; "c05"; "c06";
        "c07"; "c08"; "c09"; "c10"; "c11"; "t1_bulk"; "t1_subsurface";
        "t1_surface"; "t2_bulk"; "t2_subsurface"; "t2_surface"; "t3_bulk"])%nat ->
    reverse_triples (drop 12 (sort
       ["c00_bulk"; "c01_subsurface"; "c02"; "c03"; "c04"; "c05"; "c06";
        "c07"; "c08"; "c09"; "c10"; "c11"; "t1_bulk"; "t1_subsurface";
        "t1_surface"; "t2_bulk"; "t2_subsurface"; "t2_surface"; "t3_bulk"]))
      !! (3 * i + j)%nat
    = sort ["c00_bulk"; "c01_subsurface"; "c02"; "c03"; "c04"; "c05"; "c06";
            "c07"; "c08"; "c09"; "c10"; "c11"; "t1_bulk"; "t1_subsurface";
            "t1_surface"; "t2_bulk"; "t2_subsurface"; "t2_surface"; "t3_bulk"]
      !! (12 + 3 * i + (2 - j))%nat.
Proof.
  apply (surface_subsurface_order _ "c00_bulk" "c01_subsurface"); reflexivity.
Defined.

(** X17: in the surface-only layout (surface but not subsurface in the
    second sorted entry) the first eight sorted entries come reversed, and
    after them every whole pair of the other sorted entries comes exchanged:
    the entry at place [2i+j] of that part is the sorted entry at place
    [8+2i+(1-j)].  A last single entry is left out. *)
Theorem surface_only_order (listing : list string) (f0 f1 : string) :
  sort listing !! 0%nat = Some f0 ->
  sort listing !! 1%nat = Some f1 ->
  contains "surface" f1 = true ->
  contains "subsurface" f1 = false ->
  new_filelist listing
  = Ok (reverse (take 8 (sort listing)) ++ swap_pairs (drop 8 (sort listing))) /\
  forall i j, (j < 2)%nat -> (8 + 2 * i + 1 < length listing)%nat ->
    swap_pairs (drop 8 (sort listing)) !! (2 * i + j)%nat
    = sort listing !! (8 + 2 * i + (1 - j))%nat.
Proof.
  intros H0 H1 Hsurf Hsub.
  destruct (sort_lookup_two listing f0 f1 H0 H1) as [l Hsort].
  split.
  - rewrite (new_filelist_layout listing f0 f1 l Hsort), Hsub, Hsurf. reflexivity.
  - intros i j Hj Hi. rewrite swap_pairs_lookup, lookup_drop.
    + f_equal; lia.
    + exact Hj.
    + rewrite length_drop, sort_length. lia.
Qed.

Lemma surface_only_order_witness :
  new_filelist ["a"; "b_surface"; "c"; "d"; "e"; "f"; "g"; "h"; "i"; "j"; "k"]
  = Ok (reverse (take 8 (sort
          ["a"; "b_surface"; "c"; "d"; "e"; "f"; "g"; "h"; "i"; "j"; "k"]))
        ++ swap_pairs (drop 8 (sort
          ["a"; "b_surface"; "c"; "d"; "e"; "f"; "g"; "h"; "i"; "j"; "k"]))) /\
  forall i j, (j < 2)%nat ->
    (8 + 2 * i + 1 < length
       ["a"; "b_surface"; "c"; "d"; "e"; "f"; "g"; "h"; "i"; "j"; "k"])%nat ->
    swap_pairs (drop 8 (sort
       ["a"; "b_surface"; "c"; "d"; "e"; "f"; "g"; "h"; "i"; "j"; "k"]))
      !! (2 * i + j)%nat
    = sort ["a"; "b_surface"; "c"; "d"; "e"; "f"; "g"; "h"; "i"; "j"; "k"]
      !! (8 + 2 * i + (1 - j))%nat.
Proof.
  apply (surface_only_order _ "a" "b_surface"); reflexivity.
Defined.

(** X18: a listing with subsurface in its second sorted entry but without
    bulk in its first is not taken for the surface+subsurface layout: since
    subsurface contains surface, it is ordered as the surface-only layout,
    split after eight entries and regrouped by twos. *)
Theorem subsurface_without_bulk_order (listing : list string) (f0 f1 : string) :
  sort listing !! 0%nat = Some f0 ->
  sort listing !! 1%nat = Some f1 ->
  contains "subsurface" f1 = true ->
  contains "bulk" f0 = false ->
  new_filelist listing
  = Ok (reverse (take 8 (sort listing)) ++ swap_pairs (drop 8 (sort listing))).
Proof.
  intros H0 H1 Hsub Hbulk.
  destruct (sort_lookup_two listing f0 f1 H0 H1) as [l Hsort].
  rewrite (new_filelist_layout listing f0 f1 l Hsort), Hsub, Hbulk.
  rewrite (contains_subsurface f1 Hsub). reflexivity.
Qed.

Lemma subsurface_without_bulk_order_witness :
  new_filelist ["a"; "b_subsurface"; "c"; "d"; "e"; "f"; "g"; "h"; "i"; "j"]
  = Ok (reverse (take 8 (sort
          ["a"; "b_subsurface"; "c"; "d"; "e"; "f"; "g"; "h"; "i"; "j"]))
        ++ swap_pairs (drop 8 (sort
          ["a"; "b_subsurface"; "c"; "d"; "e"; "f"; "g"; "h"; "i"; "j"]))).
Proof.
  apply (subsurface_without_bulk_order _ "a" "b_subsurface"); reflexivity.
Defined.

(** ** The keys: removing the suffix *)

(** X20: a name in which the text to replace does not occur is returned
    as it is; so a file whose name lacks _PDOS.xcd is stored under its whole
    name. *)
Theorem replace_absent (s old new : string) :
  contains old s = false -> replace s old new = s.
Proof.
  unfold replace. induction s as [|c s IH]; [reflexivity|].
  rewrite contains_unfold. intros H.
  apply orb_false_iff in H as [Hp Hc].
  cbn [replace_from]. rewrite Hp, (IH Hc). reflexivity.
Qed.

Lemma replace_absent_witness : replace "Fe_bulk.xcd" "_PDOS.xcd" "x" = "Fe_bulk.xcd".
Proof. apply (replace_absent "Fe_bulk.xcd" "_PDOS.xcd" "x"). reflexivity. Defined.

Lemma append_cons c r p : String c r +:+ p = String c (r +:+ p).
Proof. reflexivity. Qed.

Lemma append_nil p : EmptyString +:+ p = p.
Proof. reflexivity. Qed.

(** One character of the comparison of _PDOS.xcd with the start of
    [r +:+ "_PDOS.xcd"]. *)
Ltac next_char r :=
  let c := fresh "c" in
  destruct r as [|c r];
  [ reflexivity
  | rewrite ?append_cons in *; cbn [String.prefix] in *;
    destruct (Ascii.ascii_dec _ c) as [<-|]; [|reflexivity] ].

(** An occurrence of _PDOS.xcd cannot start inside [r] and end inside a
    _PDOS.xcd that follows [r], unless it lies inside [r]. *)
Lemma suffix_no_overlap r :
  r <> EmptyString ->
  String.prefix "_PDOS.xcd" r = false ->
  String.prefix "_PDOS.xcd" (r +:+ "_PDOS.xcd") = false.
Proof.
  intros Hne H. destruct r as [|c1 r]; [congruence|].
  rewrite append_cons. cbn [String.prefix] in *.
  destruct (Ascii.ascii_dec _ c1) as [<-|]; [|reflexivity].
  do 8 next_char r.
  destruct r; discriminate H.
Qed.

(** X21: the key of a file named [stem] followed by _PDOS.xcd is [stem],
    for every [stem] in which _PDOS.xcd does not occur. *)
Theorem key_of_PDOS_file (stem : string) :
  contains "_PDOS.xcd" stem = false ->
  replace (stem +:+ "_PDOS.xcd") "_PDOS.xcd" EmptyString = stem.
Proof.
  unfold replace. induction stem as [|c stem IH]; [reflexivity|].
  rewrite contains_unfold. intros H.
  apply orb_false_iff in H as [Hp Hc].
  rewrite append_cons. cbn [replace_from].
  rewrite <- append_cons, (suffix_no_overlap (String c stem)) by (congruence || exact Hp).
  rewrite (IH Hc). reflexivity.
Qed.

Lemma key_of_PDOS_file_witness :
  replace ("Fe_bulk_PDOS" +:+ "_PDOS.xcd") "_PDOS.xcd" EmptyString = "Fe_bulk_PDOS".
Proof. apply (key_of_PDOS_file "Fe_bulk_PDOS"). reflexivity. Defined.

(** ** What can be raised *)

Lemma extract_dos_Raise band key e :
  extract_dos band key = Raise e ->
  e = KeyError \/ e = IndexError \/ e = ValueError.
Proof.
  unfold extract_dos. intros H.
  apply bind_Raise in H as [H|(i & _ & H)]; [left; eapply dict_get_Raise, H|].
  apply mapM_Raise in H as (item & _ & H).
  apply bind_Raise in H as [H|(xy & _ & H)].
  { left. eapply attrib_XY_Raise, H. }
  apply bind_Raise in H as [H|(f & _ & H)].
  - right; left. eapply index_Raise, H.
  - right; right. eapply float_Raise, H.
Qed.

Lemma raw_curve_Raise band e :
  raw_curve band = Raise e ->
  e = KeyError \/ e = IndexError \/ e = ValueError.
Proof.
  unfold raw_curve. intros H.
  apply bind_Raise in H as [H|(x & _ & H)]; [eapply extract_dos_Raise, H|].
  apply bind_Raise in H as [H|(y & _ & H)]; [eapply extract_dos_Raise, H|].
  discriminate.
Qed.

(** As [read_curve], for a goal about what is raised: a series that cannot
    be read closes the goal with itself as the series at fault. *)
Ltac read_curve_or_blame src b :=
  let x := fresh "x" in
  let y := fresh "y" in
  let e := fresh "e" in
  let E := fresh "E" in
  destruct (raw_curve b) as [[x y]|e] eqn:E;
  [ repeat (rewrite (entry_Ok _ src b x y) by first [assumption | reflexivity]);
    simpl
  | repeat (rewrite (raw_curve_Raise_entry _ src b e)
              by first [assumption | reflexivity]);
    simpl; intros [= <-]; right;
    split; [eapply raw_curve_Raise; eassumption|];
    exists b; split; [repeat constructor | assumption] ].

(** X22: for a document that parses, [parse_xcd] raises nothing but
    [UnboundLocalError], [KeyError], [IndexError] and [ValueError]: a
    [KeyError], an [IndexError] or a [ValueError] is the error of reading one
    of the series (a point without XY, with a single field, or with a field
    that [float] rejects), and otherwise the error is the
    [UnboundLocalError] of [band_extract]. *)
Theorem parse_xcd_errors (ET_parse : string -> result Element) (path : string)
    (root : Element) (e : exn) :
  ET_parse path = Ok root ->
  parse_xcd ET_parse path = Raise e ->
  e = UnboundLocalError \/
  ((e = KeyError \/ e = IndexError \/ e = ValueError) /\
   exists band, band ∈ findall root "SERIES_2D" /\ raw_curve band = Raise e).
Proof.
  intros HET. unfold parse_xcd, parse_xcd_DOS, band_extract. rewrite HET. simpl.
  destruct (findall root "SERIES_2D")
    as [|b0 [|b1 [|b2 [|b3 [|b4 [|b5 [|b6 l]]]]]]]; simpl;
    try (intros [= <-]; left; reflexivity).
  - read_curve_or_blame "s_alpha" b0. read_curve_or_blame "s_beta" b1.
    read_curve_or_blame "p_alpha" b2. read_curve_or_blame "p_beta" b3.
    discriminate.
  - read_curve_or_blame "s_alpha" b0. read_curve_or_blame "s_beta" b1.
    read_curve_or_blame "p_alpha" b2. read_curve_or_blame "p_beta" b3.
    read_curve_or_blame "d_alpha" b4. read_curve_or_blame "d_beta" b5.
    destruct (fgt (dcenter x3 y3) (dcenter x4 (neg y4))); discriminate.
Qed.

(** A fourth series whose point has the fields of the text ",1.0": the
    intensity can be read, the energy is rejected by [float]. *)
Lemma parse_xcd_errors_witness :
  ValueError = UnboundLocalError \/
  ((ValueError = KeyError \/ ValueError = IndexError \/ ValueError = ValueError) /\
   exists band,
     band ∈ findall (document [series "s" [(0, 1)]%Q; series "s" [(0, 1)]%Q;
                               series "p" [(0, 1)]%Q;
                               Elem "SERIES_2D" (Some "p") None
                                    [Elem "POINT_2D" None
                                          (Some (NotNumber, [Number 1%Q])) []]])
                    "SERIES_2D" /\
     raw_curve band = Raise ValueError).
Proof.
  apply (parse_xcd_errors
           (fun _ => Ok (document [series "s" [(0, 1)]%Q; series "s" [(0, 1)]%Q;
                                   series "p" [(0, 1)]%Q;
                                   Elem "SERIES_2D" (Some "p") None
                                        [Elem "POINT_2D" None
                                              (Some (NotNumber, [Number 1%Q])) []]]))
           "a.xcd"); reflexivity.
Defined.

Section XcdFileInitOk.

Variable ET_parse : string -> result Element.

Let step (acc : result (dict Element)) (band : Element) : result (dict Element) :=
  d ← acc;
  n ← attrib_Name band;
  k ← match n with
      | EmptyString => Raise IndexError
      | String c _ => Ok (String c EmptyString)
      end;
  Ok (dict_set d k band).

Lemma step_Ok_iff d0 band :
  (exists d, step (Ok d0) band = Ok d) <-> is_Some (initial band).
Proof.
  destruct band as [t [[|c n]|] xy cs]; simpl; split;
    try (intros [? ?]; discriminate); try (intros [? ?]; discriminate); eauto.
Qed.

Lemma foldl_step_Ok_iff l d0 :
  (exists d, foldl step (Ok d0) l = Ok d) <->
  Forall (fun b => is_Some (initial b)) l.
Proof.
  revert d0. induction l as [|b l IH]; intros d0.
  - split; [constructor | eauto].
  - change (foldl step (Ok d0) (b :: l)) with (foldl step (step (Ok d0) b) l).
    rewrite Forall_cons, <- (step_Ok_iff d0 b).
    destruct (step (Ok d0) b) as [d1|e] eqn:E.
    + rewrite IH. split; [eauto | tauto].
    + assert (HR : foldl step (Raise e) l = Raise e) by apply step_Raise.
      rewrite HR. split.
      * intros [? ?]; discriminate.
      * intros [[? ?] _]; discriminate.
Qed.

(** X23: for a document that parses, [XcdFile.__init__] builds the object
    exactly when every series of the document has a name that is not empty
    (otherwise the reading of the first character of the name raises). *)
Theorem XcdFile_init_Ok_iff (p : string) (root : Element) :
  ET_parse p = Ok root ->
  (exists self, XcdFile_init ET_parse p = Ok self) <->
  Forall (fun b => is_Some (initial b)) (findall root "SERIES_2D").
Proof.
  intros HET. unfold XcdFile_init. rewrite HET.
  rewrite <- (foldl_step_Ok_iff _ []). split.
  - intros [self H]. apply bind_Ok in H as (bs & Hbs & _). eauto.
  - intros [bs Hbs]. exists {| path := p; bands := bs |}.
    exact (f_equal (fun r => r ≫= (fun bs => Ok {| path := p; bands := bs |})) Hbs).
Qed.

End XcdFileInitOk.

Lemma XcdFile_init_Ok_iff_witness :
  (exists self, XcdFile_init (fun _ => Ok flat_document) "flat.xcd" = Ok self) <->
  Forall (fun b => is_Some (initial b)) (findall flat_document "SERIES_2D").
Proof.
  apply (XcdFile_init_Ok_iff (fun _ => Ok flat_document) "flat.xcd"). reflexivity.
Defined.

(** ** read_spin_dos.get_dos: all or nothing *)

(** X25: [get_dos] completes exactly when the directory has an ordering
    and [parse_xcd] returns a table for every file of the ordering; one file
    of the ordering that fails makes the whole call fail, and a file that the
    ordering leaves out is not read. *)
Theorem get_dos_Ok_iff
    (ET_parse : string -> result Element) (os_listdir : string -> list string)
    (dir : string) :
  (exists r, get_dos ET_parse os_listdir dir = Ok r) <->
  (exists files,
     new_filelist (os_listdir dir) = Ok files /\
     Forall (fun item => exists t, parse_xcd ET_parse (dir +:+ "/" +:+ item) = Ok t)
            files).
Proof.
  unfold get_dos. split.
  - intros [r H].
    apply bind_Ok in H as (files & Hfiles & H).
    apply bind_Ok in H as (dataframes & Hdf & _).
    exists files. split; [exact Hfiles|].
    apply mapM_Ok, Forall2_fmap_l in Hdf.
    clear Hfiles.
    induction Hdf as [|item t files' dfs Ht _ IH];
      [constructor | constructor; [exists t; exact Ht | exact IH]].
  - intros (files & Hfiles & Hall). rewrite Hfiles. simpl.
    assert (exists dfs, mapM (parse_xcd ET_parse)
                          (map (fun item => dir +:+ "/" +:+ item) files) = Ok dfs)
      as [dfs Hdfs].
    { clear Hfiles. induction Hall as [|item files [t Ht] _ [dfs IH]].
      - exists []. reflexivity.
      - exists (t :: dfs). simpl. rewrite Ht. simpl.
        exact (f_equal (fun r => r ≫= (fun k => Ok (t :: k))) IH). }
    rewrite Hdfs. simpl. eauto.
Qed.
